(** * Ebook progress synchronisation (EbookProgressSyncManager)

    A shallow embedding of the iOS background sync manager for ebook reading
    progress and of the model extension it relies on
    (LocalMediaProgress+Sync), followed by the properties of the
    reconciliation engine.

    Conventions of the embedding:
    - Swift [Double] values (progress fractions, timestamps in milliseconds,
      delays in seconds) are rationals [Q]; NaN and infinities are outside the
      model.  Comparisons are the boolean ones of the source.
    - The Realm database is a list of objects per class; an object reference
      is its primary key, and reads through a reference see the stored
      (live) object.
    - [async] code is a resumption: a tree of state reads and writes, emitted
      events and suspension points ([await]).  [run] executes a task alone to
      completion, [interleave] executes two tasks under a schedule that
      switches at suspension points.
    - Everything the manager asks of its collaborators (server configuration,
      connectivity, Realm failures, the API client) is an [Env]. *)

From Stdlib Require Import QArith Qpower Lia.
From stdpp Require Import gmap strings list.

Local Open Scope string_scope.
Local Open Scope list_scope.

(** ** Data model *)

Module ServerConnectionConfig.
Record t := { id : string }.
End ServerConnectionConfig.

Module LocalLibraryItem.
Record t := {
  id : string;                       (* primary key *)
  libraryItemId : option string      (* id of the item on the server *)
}.
End LocalLibraryItem.

(** Server side progress, as decoded from [api/me/progress/<id>]. *)
Module MediaProgress.
Record t := {
  id : string;
  libraryItemId : string;
  ebookLocation : option string;
  ebookProgress : Q;
  lastUpdate : Q;
  isFinished : bool
}.
End MediaProgress.

Module LocalMediaProgress.
Record t := {
  id : string;                              (* primary key *)
  localLibraryItemId : string;
  serverConnectionConfigId : option string;
  ebookLocation : option string;
  ebookProgress : Q;
  lastUpdate : Q;
  isFinished : bool;
  lastServerSync : option Q
}.

(** [progress.lastServerSync = v] *)
Definition set_lastServerSync (v : option Q) (p : t) : t :=
  {| id := id p; localLibraryItemId := localLibraryItemId p;
     serverConnectionConfigId := serverConnectionConfigId p;
     ebookLocation := ebookLocation p; ebookProgress := ebookProgress p;
     lastUpdate := lastUpdate p; isFinished := isFinished p;
     lastServerSync := v |}.

(** Modelled from the spec: [updateFromServerMediaProgress] is a method of
    the application's LocalMediaProgress model, which is not part of these
    sources.  Per the specification it "applies the server's location,
    progressFraction, isFinished onto the LocalProgress, sets lastUpdatedAt
    to the server's timestamp"; the unit test
    testSyncServerMediaProgressWithLocalMediaProgress checks the first two. *)
Definition updateFromServerMediaProgress (server : MediaProgress.t) (p : t) : t :=
  {| id := id p; localLibraryItemId := localLibraryItemId p;
     serverConnectionConfigId := serverConnectionConfigId p;
     ebookLocation := MediaProgress.ebookLocation server;
     ebookProgress := MediaProgress.ebookProgress server;
     lastUpdate := MediaProgress.lastUpdate server;
     isFinished := MediaProgress.isFinished server;
     lastServerSync := lastServerSync p |}.
End LocalMediaProgress.

(** The dictionary sent by [sendProgressToServer]. *)
Module ProgressData.
Record t := {
  ebookLocation : string;
  ebookProgress : Q;
  lastUpdate : Q;
  isFinished : bool
}.
End ProgressData.

(** Swift's [a > b] and [a >= b] on [Double]. *)
Definition gt (a b : Q) : bool := negb (Qle_bool a b).
Definition ge (a b : Q) : bool := Qle_bool b a.

(** ** Collaborators *)

(** Outcome of [ApiClient.getResource]: the success callback with a decoded
    progress, or the failure callback with or without an error. *)
Inductive GetOutcome :=
| GetSuccess (progress : MediaProgress.t)
| GetFailure (error : bool).

(** Outcome of [ApiClient.patchResource]. *)
Inductive PatchOutcome :=
| PatchSuccess (success : bool)
| PatchFailure.

Record Env := {
  Store_serverConfig : option ServerConnectionConfig.t;
  ApiClient_isConnectedToInternet : bool;
  Realm_opens : bool;                 (* [try Realm()] succeeds *)
  Realm_writes : bool;                (* [try realm.write] succeeds *)
  ApiClient_getResource : string -> GetOutcome;
  ApiClient_patchResource : string -> ProgressData.t -> PatchOutcome
}.

(** ** Manager state *)

Record State := {
  localMediaProgress : list LocalMediaProgress.t;   (* Realm objects *)
  localLibraryItems : list LocalLibraryItem.t;      (* Realm objects *)
  retryAttempts : gmap string nat;                  (* progressId -> retry count *)
  isCurrentlySyncing : bool;
  clock : Q                                         (* Date(), in milliseconds *)
}.

Definition set_localMediaProgress (f : list LocalMediaProgress.t -> list LocalMediaProgress.t)
    (s : State) : State :=
  {| localMediaProgress := f (localMediaProgress s);
     localLibraryItems := localLibraryItems s;
     retryAttempts := retryAttempts s;
     isCurrentlySyncing := isCurrentlySyncing s;
     clock := clock s |}.

Definition set_retryAttempts (f : gmap string nat -> gmap string nat) (s : State) : State :=
  {| localMediaProgress := localMediaProgress s;
     localLibraryItems := localLibraryItems s;
     retryAttempts := f (retryAttempts s);
     isCurrentlySyncing := isCurrentlySyncing s;
     clock := clock s |}.

Definition set_isCurrentlySyncing (b : bool) (s : State) : State :=
  {| localMediaProgress := localMediaProgress s;
     localLibraryItems := localLibraryItems s;
     retryAttempts := retryAttempts s;
     isCurrentlySyncing := b;
     clock := clock s |}.

Definition set_clock (f : Q -> Q) (s : State) : State :=
  {| localMediaProgress := localMediaProgress s;
     localLibraryItems := localLibraryItems s;
     retryAttempts := retryAttempts s;
     isCurrentlySyncing := isCurrentlySyncing s;
     clock := f (clock s) |}.

(** Sync configuration. *)
Definition maxRetryAttempts : nat := 5.
Definition baseRetryDelay : Q := 2.

(** ** Observable effects *)

Inductive LogMessage :=
| LogAlreadySyncing                               (* "Sync already in progress, skipping" *)
| LogNoNetwork
| LogNoServerConfig
| LogFound (count : nat)                          (* "Found n ebook progress items pending sync" *)
| LogPendingFailed                                (* "Failed to get pending progress items" *)
| LogMaxRetry (progressId : string)               (* "Max retry attempts reached for progress .." *)
| LogSyncing (localLibraryItemId : string) (attempt : nat)
| LogNoServerItem (progressId : string)           (* "No server library item ID found .." *)
| LogSynced (serverLibraryItemId : string)
| LogFailedWillRetry (progressId : string)
| LogErrorSyncing (progressId : string)
| LogLocalFurther
| LogServerFurther
| LogEqualLocalRecent
| LogEqualServerRecent
| LogBackground (m : string).

Inductive Event :=
| Sleep (seconds : Q)                                     (* Task.sleep *)
| GetResource (libraryItemId : string)                    (* GET api/me/progress/<id> *)
| PatchResource (libraryItemId : string) (parameters : ProgressData.t)
| Log (m : LogMessage).

Inductive EbookSyncError :=
| noServerConfig
| noNetwork
| progressNotFound
| syncFailed.

(** What a Swift [throw] carries here: one of the manager's typed errors, a
    Realm error or an API error. *)
Inductive Error :=
| SyncError (e : EbookSyncError)
| RealmError
| ApiError.

(** ** Tasks *)

Inductive Prog (A : Type) : Type :=
| Ret (a : A)
| Throw (e : Error)
| Read (k : State -> Prog A)
| Write (s : State) (k : Prog A)
| Emit (e : Event) (k : Prog A)
| Await (k : Prog A).

Arguments Ret {A} a.
Arguments Throw {A} e.
Arguments Read {A} k.
Arguments Write {A} s k.
Arguments Emit {A} e k.
Arguments Await {A} k.

Fixpoint bind {A B : Type} (p : Prog A) (f : A -> Prog B) : Prog B :=
  match p with
  | Ret a => f a
  | Throw e => Throw e
  | Read k => Read (fun s => bind (k s) f)
  | Write s k => Write s (bind k f)
  | Emit e k => Emit e (bind k f)
  | Await k => Await (bind k f)
  end.

(** [do { p } catch { h }] *)
Fixpoint catch {A : Type} (p : Prog A) (h : Error -> Prog A) : Prog A :=
  match p with
  | Ret a => Ret a
  | Throw e => h e
  | Read k => Read (fun s => catch (k s) h)
  | Write s k => Write s (catch k h)
  | Emit e k => Emit e (catch k h)
  | Await k => Await (catch k h)
  end.

Declare Scope prog_scope.
Delimit Scope prog_scope with prog.
Bind Scope prog_scope with Prog.

Notation "x <- c1 ;; c2" := (bind c1 (fun x => c2))
  (at level 100, c1 at next level, right associativity) : prog_scope.
Notation "c1 ;; c2" := (bind c1 (fun _ => c2))
  (at level 100, right associativity) : prog_scope.

Local Open Scope prog_scope.

Definition get : Prog State := Read (fun s => Ret s).
Definition modify (f : State -> State) : Prog unit := Read (fun s => Write (f s) (Ret tt)).
Definition emit (e : Event) : Prog unit := Emit e (Ret tt).
Definition log (m : LogMessage) : Prog unit := emit (Log m).
Definition await : Prog unit := Await (Ret tt).

(** [for x in xs { body x }] *)
Fixpoint forEach {X : Type} (xs : list X) (body : X -> Prog unit) : Prog unit :=
  match xs with
  | [] => Ret tt
  | x :: xs' => body x ;; forEach xs' body
  end.

Inductive Outcome (A : Type) :=
| Returned (a : A)
| Thrown (e : Error).

Arguments Returned {A} a.
Arguments Thrown {A} e.

(** A task executed alone, from start to end. *)
Fixpoint run {A : Type} (p : Prog A) (s : State) : Outcome A * State * list Event :=
  match p with
  | Ret a => (Returned a, s, [])
  | Throw e => (Thrown e, s, [])
  | Read k => run (k s) s
  | Write s' k => run k s'
  | Emit e k => match run k s with (r, s', t) => (r, s', e :: t) end
  | Await k => run k s
  end.

(** A task executed up to its next suspension point. *)
Fixpoint segment {A : Type} (p : Prog A) (s : State) : Prog A * State * list Event :=
  match p with
  | Ret a => (Ret a, s, [])
  | Throw e => (Throw e, s, [])
  | Read k => segment (k s) s
  | Write s' k => segment k s'
  | Emit e k => match segment k s with (p', s', t) => (p', s', e :: t) end
  | Await k => (k, s, [])
  end.

Definition finished {A : Type} (p : Prog A) : bool :=
  match p with
  | Ret _ | Throw _ => true
  | _ => false
  end.

(** Two tasks on the shared state; [true] in the schedule resumes the first,
    [false] the second.  A task that is not finished has been started and is
    suspended. *)
Fixpoint interleave {A B : Type} (schedule : list bool) (p : Prog A) (q : Prog B) (s : State)
  : Prog A * Prog B * State * list Event :=
  match schedule with
  | [] => (p, q, s, [])
  | true :: schedule' =>
      match segment p s with
      | (p', s', t) =>
          match interleave schedule' p' q s' with
          | (p'', q'', s'', t') => (p'', q'', s'', t ++ t')
          end
      end
  | false :: schedule' =>
      match segment q s with
      | (q', s', t) =>
          match interleave schedule' p q' s' with
          | (p'', q'', s'', t') => (p'', q'', s'', t ++ t')
          end
      end
  end.

(** ** Realm access *)

Definition sameObject (progress p : LocalMediaProgress.t) : bool :=
  String.eqb (LocalMediaProgress.id p) (LocalMediaProgress.id progress).

(** Reading through the reference [progress]: the stored object with its
    primary key; an object that is not stored keeps the fields it has. *)
Definition deref (s : State) (progress : LocalMediaProgress.t) : LocalMediaProgress.t :=
  default progress (List.find (sameObject progress) (localMediaProgress s)).

(** Assigning fields of the object [progress] refers to. *)
Definition assign (progress : LocalMediaProgress.t)
    (f : LocalMediaProgress.t -> LocalMediaProgress.t) (s : State) : State :=
  set_localMediaProgress
    (List.map (fun p => if sameObject progress p then f p else p)) s.

(** [withCheckedThrowingContinuation { let realm = try Realm();
    try realm.write { body }; resume }]: the closure runs at once, the caller
    is resumed with its result. *)
Definition realmWrite (env : Env) (body : State -> State) : Prog unit :=
  if Realm_opens env && Realm_writes env
  then modify body ;; await
  else await ;; Throw RealmError.

(** ** LocalMediaProgress+Sync *)

(** [lastServerSync == nil || lastUpdate > lastServerSync!] *)
Definition updatedSinceSync (p : LocalMediaProgress.t) : bool :=
  match LocalMediaProgress.lastServerSync p with
  | None => true
  | Some lastServerSync => gt (LocalMediaProgress.lastUpdate p) lastServerSync
  end.

Definition needsServerSync (env : Env) (p : LocalMediaProgress.t) : bool :=
  match LocalMediaProgress.serverConnectionConfigId p with
  | None => false
  | Some serverConnectionConfigId =>
      match Store_serverConfig env with
      | None => false
      | Some serverConfig =>
          if String.eqb (ServerConnectionConfig.id serverConfig) serverConnectionConfigId
          then updatedSinceSync p
          else false
      end
  end.

(** ** EbookProgressSyncManager: helper methods *)

Definition isNetworkAvailable (env : Env) : bool := ApiClient_isConnectedToInternet env.

Definition getServerLibraryItemId (env : Env) (s : State) (progress : LocalMediaProgress.t)
  : option string :=
  if Realm_opens env then
    match List.find
            (fun item => String.eqb (LocalLibraryItem.id item)
                           (LocalMediaProgress.localLibraryItemId (deref s progress)))
            (localLibraryItems s) with
    | Some localItem => LocalLibraryItem.libraryItemId localItem
    | None => None
    end
  else None.

(** Exponential backoff: [pow(2.0, Double(attempt)) * baseRetryDelay]. *)
Definition calculateRetryDelay (attempt : nat) : Q :=
  (2 ^ Z.of_nat attempt * baseRetryDelay)%Q.

(** [try? await Task.sleep(nanoseconds: UInt64(delay * 1_000_000_000))] *)
Definition sleep (delay : Q) : Prog unit :=
  emit (Sleep delay) ;; await ;; modify (set_clock (fun now => (now + delay * 1000)%Q)).

(** ** API communication *)

Definition fetchServerProgress (env : Env) (libraryItemId : string)
  : Prog (option MediaProgress.t) :=
  emit (GetResource libraryItemId) ;;
  await ;;
  match ApiClient_getResource env libraryItemId with
  | GetSuccess progress => Ret (Some progress)
  | GetFailure true => Throw ApiError
  | GetFailure false => Ret None
  end.

Definition sendProgressToServer (env : Env) (progress : LocalMediaProgress.t)
    (serverLibraryItemId : string) : Prog bool :=
  s <- get ;;
  let progressData :=
    {| ProgressData.ebookLocation :=
         default "" (LocalMediaProgress.ebookLocation (deref s progress));
       ProgressData.ebookProgress := LocalMediaProgress.ebookProgress (deref s progress);
       ProgressData.lastUpdate := LocalMediaProgress.lastUpdate (deref s progress);
       ProgressData.isFinished := LocalMediaProgress.isFinished (deref s progress) |} in
  emit (PatchResource serverLibraryItemId progressData) ;;
  await ;;
  match ApiClient_patchResource env serverLibraryItemId progressData with
  | PatchSuccess success => Ret success
  | PatchFailure => Ret false
  end.

Definition markProgressAsSynced (env : Env) (progress : LocalMediaProgress.t) : Prog unit :=
  realmWrite env
    (fun s => assign progress (LocalMediaProgress.set_lastServerSync (Some (clock s))) s).

(** ** Conflict resolution *)

Definition updateLocalProgressFromServer (env : Env) (localProgress : LocalMediaProgress.t)
    (serverProgress : MediaProgress.t) : Prog unit :=
  realmWrite env
    (assign localProgress (LocalMediaProgress.updateFromServerMediaProgress serverProgress)).

(** Returns the reference it was given: the resolved progress is the local
    object, updated in place when the server wins. *)
Definition resolveProgressConflicts (env : Env) (localProgress : LocalMediaProgress.t)
    (serverLibraryItemId : string) : Prog LocalMediaProgress.t :=
  serverProgress <- fetchServerProgress env serverLibraryItemId ;;
  match serverProgress with
  | None => Ret localProgress
  | Some serverProgress =>
      s <- get ;;
      let localLastUpdate := LocalMediaProgress.lastUpdate (deref s localProgress) in
      let serverLastUpdate := MediaProgress.lastUpdate serverProgress in
      if gt (LocalMediaProgress.ebookProgress (deref s localProgress))
            (MediaProgress.ebookProgress serverProgress)
      then log LogLocalFurther ;; Ret localProgress
      else if gt (MediaProgress.ebookProgress serverProgress)
                 (LocalMediaProgress.ebookProgress (deref s localProgress))
      then log LogServerFurther ;;
           updateLocalProgressFromServer env localProgress serverProgress ;;
           Ret localProgress
      else if gt localLastUpdate serverLastUpdate
      then log LogEqualLocalRecent ;; Ret localProgress
      else log LogEqualServerRecent ;;
           updateLocalProgressFromServer env localProgress serverProgress ;;
           Ret localProgress
  end.

(** ** Main sync logic

    The [serverConfig] argument that the source passes down from
    [syncProgressItem] to the API calls is never read there (the API client
    uses the stored configuration); it is left out. *)

(** The [do { .. } catch { .. }] block of [syncProgressItem], entered with the
    retry count read at the start of the call. *)
Definition syncAttempt (env : Env) (progress : LocalMediaProgress.t) (currentRetries : nat)
  : Prog unit :=
  let progressId := LocalMediaProgress.id progress in
  catch
    (s <- get ;;
     match getServerLibraryItemId env s progress with
     | None => log (LogNoServerItem progressId)
     | Some serverLibraryItemId =>
         resolvedProgress <- resolveProgressConflicts env progress serverLibraryItemId ;;
         success <- sendProgressToServer env resolvedProgress serverLibraryItemId ;;
         if success : bool then
           markProgressAsSynced env progress ;;
           modify (set_retryAttempts (delete progressId)) ;;
           log (LogSynced serverLibraryItemId)
         else
           modify (set_retryAttempts (<[progressId := (currentRetries + 1)%nat]>)) ;;
           log (LogFailedWillRetry progressId)
     end)
    (fun _ =>
       modify (set_retryAttempts (<[progressId := (currentRetries + 1)%nat]>)) ;;
       log (LogErrorSyncing progressId)).

Definition syncProgressItem (env : Env) (progress : LocalMediaProgress.t) : Prog unit :=
  let progressId := LocalMediaProgress.id progress in
  s <- get ;;
  let currentRetries := default 0%nat (retryAttempts s !! progressId) in
  if (maxRetryAttempts <=? currentRetries)%nat then
    log (LogMaxRetry progressId) ;;
    modify (set_retryAttempts (delete progressId))
  else
    (if (0 <? currentRetries)%nat
     then sleep (calculateRetryDelay currentRetries)
     else Ret tt) ;;
    s <- get ;;
    log (LogSyncing (LocalMediaProgress.localLibraryItemId (deref s progress))
                    (currentRetries + 1)) ;;
    syncAttempt env progress currentRetries.

(** The Realm query of [getPendingProgressItems]:
    [serverConnectionConfigId == %@ AND ebookLocation != nil AND ebookLocation != ''],
    then [lastServerSync == nil OR lastUpdate > lastServerSync]. *)
Definition isPendingFor (serverConfigId : string) (p : LocalMediaProgress.t) : bool :=
  match LocalMediaProgress.serverConnectionConfigId p with
  | Some c => String.eqb c serverConfigId
  | None => false
  end
  && match LocalMediaProgress.ebookLocation p with
     | Some l => negb (String.eqb l "")
     | None => false
     end
  && updatedSinceSync p.

Definition getPendingProgressItems (env : Env) (serverConfigId : string)
  : Prog (list LocalMediaProgress.t) :=
  s <- get ;;
  if Realm_opens env
  then await ;; Ret (List.filter (isPendingFor serverConfigId) (localMediaProgress s))
  else await ;; Throw RealmError.

Definition performSync (env : Env) (serverConfig : ServerConnectionConfig.t) : Prog unit :=
  catch
    (pendingItems <- getPendingProgressItems env (ServerConnectionConfig.id serverConfig) ;;
     log (LogFound (length pendingItems)) ;;
     forEach pendingItems (fun progress => syncProgressItem env progress))
    (fun _ => log LogPendingFailed).

(** [syncPendingProgress] is synchronous: it checks its guards, sets
    [isCurrentlySyncing] and starts a [Task]; the task it started is the
    result here ([None] when a guard returned). *)
Definition syncPendingProgress (env : Env) : Prog (option (Prog unit)) :=
  s <- get ;;
  if isCurrentlySyncing s then log LogAlreadySyncing ;; Ret None
  else if negb (isNetworkAvailable env) then log LogNoNetwork ;; Ret None
  else match Store_serverConfig env with
       | None => log LogNoServerConfig ;; Ret None
       | Some serverConfig =>
           modify (set_isCurrentlySyncing true) ;;
           Ret (Some (performSync env serverConfig ;;
                      modify (set_isCurrentlySyncing false)))
       end.

(** The trigger together with the task it starts, run to its end. *)
Definition syncPendingProgressTask (env : Env) : Prog unit :=
  task <- syncPendingProgress env ;;
  match task with
  | Some task => await ;; task
  | None => Ret tt
  end.

(** ** Background tasks *)

(** [do { await syncProgressItem(..); return true } catch { return false }] *)
Definition syncProgressItemQuietly (env : Env) (progress : LocalMediaProgress.t) : Prog bool :=
  catch
    (syncProgressItem env progress ;; Ret true)
    (fun _ => log (LogBackground "Quiet sync failed") ;; Ret false).

(** [for x in xs { let success = await body(x); if success { successCount += 1 } }] *)
Fixpoint forEachCounting {X : Type} (xs : list X) (body : X -> Prog bool) (successCount : nat)
  : Prog nat :=
  match xs with
  | [] => Ret successCount
  | x :: xs' =>
      success <- body x ;;
      forEachCounting xs' body (if success : bool then S successCount else successCount)
  end.

Definition performBackgroundSync (env : Env) : Prog bool :=
  match Store_serverConfig env with
  | None => log (LogBackground "No server config for background sync") ;; Ret false
  | Some serverConfig =>
      if negb (isNetworkAvailable env)
      then log (LogBackground "No network for background sync") ;; Ret false
      else
        catch
          (pendingItems <- getPendingProgressItems env (ServerConnectionConfig.id serverConfig) ;;
           log (LogFound (length pendingItems)) ;;
           successCount <-
             forEachCounting (take 10 pendingItems)   (* Limit to 10 items to avoid timeout *)
               (fun progress => syncProgressItemQuietly env progress) 0 ;;
           log (LogBackground "Background sync completed") ;;
           Ret (0 <? successCount)%nat)
          (fun _ => log (LogBackground "Background sync error") ;; Ret false)
  end.

(** The Realm query of [getRecentlyUpdatedItems]. *)
Definition isRecentFor (serverConfigId : string) (oneHourAgo : Q) (p : LocalMediaProgress.t)
  : bool :=
  match LocalMediaProgress.serverConnectionConfigId p with
  | Some c => String.eqb c serverConfigId
  | None => false
  end
  && match LocalMediaProgress.ebookLocation p with
     | Some _ => true
     | None => false
     end
  && gt (LocalMediaProgress.lastUpdate p) oneHourAgo
  && updatedSinceSync p.

Definition getRecentlyUpdatedItems (env : Env) (serverConfigId : string)
  : Prog (list LocalMediaProgress.t) :=
  s <- get ;;
  let oneHourAgo := (clock s - 60 * 60 * 1000)%Q in
  if Realm_opens env
  then await ;; Ret (List.filter (isRecentFor serverConfigId oneHourAgo) (localMediaProgress s))
  else await ;; Throw RealmError.

Definition performQuickSync (env : Env) : Prog bool :=
  match Store_serverConfig env with
  | None => Ret false
  | Some serverConfig =>
      if negb (isNetworkAvailable env) then Ret false
      else
        catch
          (recentItems <- getRecentlyUpdatedItems env (ServerConnectionConfig.id serverConfig) ;;
           match recentItems with
           | [] => Ret true
           | _ =>
               log (LogFound (length recentItems)) ;;
               forEach (take 3 recentItems)            (* Limit for quick sync *)
                 (fun progress => _ <- syncProgressItemQuietly env progress ;; Ret tt) ;;
               Ret true
           end)
          (fun _ => log (LogBackground "Quick sync error") ;; Ret false)
  end.

(** ** Manual sync *)

Definition firstFor (localLibraryItemId : string) (s : State) : option LocalMediaProgress.t :=
  List.find (fun p => String.eqb (LocalMediaProgress.localLibraryItemId p) localLibraryItemId)
    (localMediaProgress s).

(** Manual sync method for the "sync progress to server" button. *)
Definition manualSyncProgress (env : Env) (localLibraryItemId : string) : Prog bool :=
  match Store_serverConfig env with
  | None => Throw (SyncError noServerConfig)
  | Some serverConfig =>
      if negb (isNetworkAvailable env) then Throw (SyncError noNetwork)
      else if negb (Realm_opens env) then Throw RealmError
      else
        s <- get ;;
        match firstFor localLibraryItemId s with
        | None => Throw (SyncError progressNotFound)
        | Some progress =>
            syncProgressItem env progress ;;
            s' <- get ;;
            Ret match firstFor localLibraryItemId s' with
                | Some updatedProgress =>
                    match LocalMediaProgress.lastServerSync updatedProgress with
                    | Some lastServerSync =>
                        ge lastServerSync (LocalMediaProgress.lastUpdate updatedProgress)
                    | None => false
                    end
                | None => false
                end
        end
  end.

(** Check if progress item has pending sync. *)
Definition hasPendingSync (env : Env) (s : State) (localLibraryItemId : string) : bool :=
  if Realm_opens env then
    match firstFor localLibraryItemId s with
    | None => false
    | Some progress => updatedSinceSync progress
    end
  else false.

(** Called when progress is updated to trigger immediate sync attempt. *)
Definition onProgressUpdated (env : Env) (localLibraryItemId : string) : Prog unit :=
  if negb (isNetworkAvailable env) then log LogNoNetwork
  else match Store_serverConfig env with
       | None => log LogNoServerConfig
       | Some serverConfig =>
           if negb (Realm_opens env) then log (LogBackground "Failed to sync updated progress")
           else
             s <- get ;;
             match firstFor localLibraryItemId s with
             | None => Ret tt
             | Some progress => syncProgressItem env progress
             end
       end.

(** ** The resolver of the specification

    [resolve(local, server) -> {useLocal | useServer}] as section 4.2 of the
    specification words it, for comparison with [resolveProgressConflicts]. *)

Inductive Resolution := useLocal | useServer.

Definition spec_resolve (local : LocalMediaProgress.t) (server : option MediaProgress.t)
  : Resolution :=
  match server with
  | None => useLocal
  | Some server =>
      if gt (LocalMediaProgress.ebookProgress local) (MediaProgress.ebookProgress server)
      then useLocal
      else if gt (MediaProgress.ebookProgress server) (LocalMediaProgress.ebookProgress local)
      then useServer
      else if gt (MediaProgress.lastUpdate server) (LocalMediaProgress.lastUpdate local)
      then useServer
      else useLocal
  end.

(** The retry count [syncProgressItem] reads: [retryAttempts[progressId] ?? 0]. *)
Definition currentRetriesOf (s : State) (progress : LocalMediaProgress.t) : nat :=
  default 0%nat (retryAttempts s !! LocalMediaProgress.id progress).

(** The local item of [progress] is associated with the server item [sid]
    (whenever Realm can be opened to look it up). *)
Definition mappedTo (s : State) (progress : LocalMediaProgress.t) (sid : string) : Prop :=
  forall env, Realm_opens env = true -> getServerLibraryItemId env s progress = Some sid.

(** A transport failure for the server item [sid]: the fetch fails with an
    error, or no push is answered with success. *)
Definition transportFails (env : Env) (sid : string) : Prop :=
  ApiClient_getResource env sid = GetFailure true \/
  forall data, ApiClient_patchResource env sid data <> PatchSuccess true.

(** What the payload of a push carries when the local object has just been
    updated from [server]. *)
Definition payloadOf (server : MediaProgress.t) : ProgressData.t :=
  {| ProgressData.ebookLocation := default "" (MediaProgress.ebookLocation server);
     ProgressData.ebookProgress := MediaProgress.ebookProgress server;
     ProgressData.lastUpdate := MediaProgress.lastUpdate server;
     ProgressData.isFinished := MediaProgress.isFinished server |}.

(** A task never changes [isCurrentlySyncing], whatever the state it starts
    in or is resumed in. *)
Fixpoint flagSafe {A : Type} (p : Prog A) (s : State) : Prop :=
  match p with
  | Ret _ | Throw _ => True
  | Read k => flagSafe (k s) s
  | Write s' k => isCurrentlySyncing s' = isCurrentlySyncing s /\ flagSafe k s'
  | Emit _ k => flagSafe k s
  | Await k => forall s', flagSafe k s'
  end.

(** ** Reading traces *)

Definition isTransport (e : Event) : bool :=
  match e with
  | GetResource _ | PatchResource _ _ => true
  | _ => false
  end.

Definition isPatch (e : Event) : bool :=
  match e with
  | PatchResource _ _ => true
  | _ => false
  end.

(** Every call of [syncProgressItem] logs exactly one of these two messages
    before anything else. *)
Definition isItemStart (e : Event) : bool :=
  match e with
  | Log (LogMaxRetry _) | Log (LogSyncing _ _) => true
  | _ => false
  end.

Definition attempts (t : list Event) : nat := length (List.filter isItemStart t).
Definition pushes (t : list Event) : nat := length (List.filter isPatch t).
Definition transportCalls (t : list Event) : list Event := List.filter isTransport t.

Definition outcomeOf {A : Type} (p : Prog A) (s : State) : Outcome A := (run p s).1.1.
Definition stateAfter {A : Type} (p : Prog A) (s : State) : State := (run p s).1.2.
Definition traceOf {A : Type} (p : Prog A) (s : State) : list Event := (run p s).2.

(** ** Concrete scenarios

    The data of the scenarios of the specification (section 8) and of the
    unit tests, used to evaluate the manager. *)

Definition epoch : Q := 1700000000000.

Definition chapter1 : string := "epubcfi(/6/4[chapter1]!/4/1/1:0)".
Definition chapter2 : string := "epubcfi(/6/4[chapter2]!/4/1/1:0)".

Definition localProgressOf (serverConnectionConfigId : option string) (ebookProgress lastUpdate : Q)
    (lastServerSync : option Q) : LocalMediaProgress.t :=
  {| LocalMediaProgress.id := "progress-1";
     LocalMediaProgress.localLibraryItemId := "local-item-1";
     LocalMediaProgress.serverConnectionConfigId := serverConnectionConfigId;
     LocalMediaProgress.ebookLocation := Some chapter1;
     LocalMediaProgress.ebookProgress := ebookProgress;
     LocalMediaProgress.lastUpdate := lastUpdate;
     LocalMediaProgress.isFinished := false;
     LocalMediaProgress.lastServerSync := lastServerSync |}.

Definition serverProgressOf (ebookProgress lastUpdate : Q) : MediaProgress.t :=
  {| MediaProgress.id := "server-progress-1";
     MediaProgress.libraryItemId := "server-item-1";
     MediaProgress.ebookLocation := Some chapter2;
     MediaProgress.ebookProgress := ebookProgress;
     MediaProgress.lastUpdate := lastUpdate;
     MediaProgress.isFinished := false |}.

(** A device holding the objects [objects]; the downloaded item
    "local-item-1" is mapped to "server-item-1", "local-item-2" to nothing. *)
Definition deviceWith (objects : list LocalMediaProgress.t) (retries : gmap string nat) : State :=
  {| localMediaProgress := objects;
     localLibraryItems :=
       [ {| LocalLibraryItem.id := "local-item-1";
            LocalLibraryItem.libraryItemId := Some "server-item-1" |};
         {| LocalLibraryItem.id := "local-item-2";
            LocalLibraryItem.libraryItemId := None |} ];
     retryAttempts := retries;
     isCurrentlySyncing := false;
     clock := epoch + 120000 |}.

(** Online, connected to the server [serverConfigId], Realm working. *)
Definition onlineWith (serverConfigId : string) (getResource : GetOutcome)
    (patchResource : PatchOutcome) : Env :=
  {| Store_serverConfig := Some {| ServerConnectionConfig.id := serverConfigId |};
     ApiClient_isConnectedToInternet := true;
     Realm_opens := true;
     Realm_writes := true;
     ApiClient_getResource := fun _ => getResource;
     ApiClient_patchResource := fun _ _ => patchResource |}.

(** Equal progress 0.5 and the same timestamp on both sides. *)
Definition tieLocal : LocalMediaProgress.t := localProgressOf (Some "A") 0.5 epoch None.
Definition tieServer : MediaProgress.t := serverProgressOf 0.5 epoch.
Definition tieEnv : Env := onlineWith "A" (GetSuccess tieServer) (PatchSuccess true).
Definition tieState : State := deviceWith [tieLocal] ∅.

(** A record of the downloaded item "local-item-2", which has no server
    library item id; two failed attempts are already on its count. *)
Definition unmappedLocal : LocalMediaProgress.t :=
  {| LocalMediaProgress.id := "progress-2";
     LocalMediaProgress.localLibraryItemId := "local-item-2";
     LocalMediaProgress.serverConnectionConfigId := Some "A";
     LocalMediaProgress.ebookLocation := Some chapter1;
     LocalMediaProgress.ebookProgress := 0.4;
     LocalMediaProgress.lastUpdate := epoch;
     LocalMediaProgress.isFinished := false;
     LocalMediaProgress.lastServerSync := None |}.
Definition unmappedEnv : Env := onlineWith "A" (GetFailure false) (PatchSuccess true).
Definition unmappedState : State := deviceWith [unmappedLocal] {[ "progress-2" := 2%nat ]}.

(** Scenario E: a pending record whose pushes keep failing (timeouts, then a
    5xx on the fetch), then a healthy server. *)
Definition pendingLocal : LocalMediaProgress.t := localProgressOf (Some "A") 0.4 epoch None.
Definition pendingState : State := deviceWith [pendingLocal] ∅.
Definition pushTimesOut : Env := onlineWith "A" (GetFailure false) PatchFailure.
Definition fetchErrors : Env := onlineWith "A" (GetFailure true) (PatchSuccess true).
Definition healthy : Env := onlineWith "A" (GetFailure false) (PatchSuccess true).
Definition fiveFailures : list Env :=
  [pushTimesOut; pushTimesOut; fetchErrors; pushTimesOut; fetchErrors].

(** Scenario C: the server is further (0.5, a minute newer) than the local
    record (0.2). *)
Definition behindLocal : LocalMediaProgress.t := localProgressOf (Some "A") 0.2 epoch None.
Definition aheadServer : MediaProgress.t := serverProgressOf 0.5 (epoch + 60000).
Definition behindState : State := deviceWith [behindLocal] ∅.
Definition aheadEnv : Env := onlineWith "A" (GetSuccess aheadServer) (PatchSuccess true).

(** Scenario D: a record downloaded from server "A" while the active
    connection is "B". *)
Definition offServerLocal : LocalMediaProgress.t := localProgressOf (Some "A") 0.4 epoch None.
Definition offServerState : State := deviceWith [offServerLocal] ∅.
Definition offServerEnv : Env := onlineWith "B" (GetFailure false) (PatchSuccess true).

(** A purely local record: no server connection. *)
Definition localOnly : LocalMediaProgress.t := localProgressOf None 0.4 epoch None.
Definition localOnlyState : State := deviceWith [localOnly] ∅.

(** Two pending records of server "A"; the device with nothing to sync. *)
Definition twoPendingState : State := deviceWith [pendingLocal; unmappedLocal] ∅.
Definition idleState : State := deviceWith [] ∅.

(** Twelve pending, recently updated records of server "A". *)
Definition numbered (n : string) : LocalMediaProgress.t :=
  {| LocalMediaProgress.id := String.append "progress-" n;
     LocalMediaProgress.localLibraryItemId := "local-item-1";
     LocalMediaProgress.serverConnectionConfigId := Some "A";
     LocalMediaProgress.ebookLocation := Some chapter1;
     LocalMediaProgress.ebookProgress := 0.3;
     LocalMediaProgress.lastUpdate := epoch;
     LocalMediaProgress.isFinished := false;
     LocalMediaProgress.lastServerSync := None |}.
Definition crowdedState : State :=
  deviceWith
    (List.map numbered ["01"; "02"; "03"; "04"; "05"; "06"; "07"; "08"; "09"; "10"; "11"; "12"])
    ∅.

(** Two tasks resumed in turn, four times each. *)
Definition alternating : list bool := [true; false; true; false; true; false; true; false].


(** * The rest of the sync code

    The remaining members of the LocalMediaProgress+Sync extension and the
    application delegate's use of the manager. *)

(** The fields written by [updateEbookProgressWithSync]; [lastServerSync]
    is not one of them ("this marks it as needing sync"). *)
Definition withEbookProgress (ebookLocation : string) (ebookProgress now : Q)
    (p : LocalMediaProgress.t) : LocalMediaProgress.t :=
  {| LocalMediaProgress.id := LocalMediaProgress.id p;
     LocalMediaProgress.localLibraryItemId := LocalMediaProgress.localLibraryItemId p;
     LocalMediaProgress.serverConnectionConfigId :=
       LocalMediaProgress.serverConnectionConfigId p;
     LocalMediaProgress.ebookLocation := Some ebookLocation;
     LocalMediaProgress.ebookProgress := ebookProgress;
     LocalMediaProgress.lastUpdate := now;
     LocalMediaProgress.isFinished := LocalMediaProgress.isFinished p;
     LocalMediaProgress.lastServerSync := LocalMediaProgress.lastServerSync p |}.

(** [try realm?.write { .. }]: an object that is not stored has no realm and
    the optional chain does nothing; for a stored one the write can throw. *)
Definition updateEbookProgressWithSync (env : Env) (progress : LocalMediaProgress.t)
    (ebookLocation : string) (ebookProgress : Q) : Prog unit :=
  s <- get ;;
  match List.find (sameObject progress) (localMediaProgress s) with
  | None => Ret tt
  | Some _ =>
      if Realm_writes env
      then modify (fun s => assign progress
                              (withEbookProgress ebookLocation ebookProgress (clock s)) s)
      else Throw RealmError
  end.

(** [lastServerSync = Date().timeIntervalSince1970 * 1000] *)
Definition markSyncedToServer (progress : LocalMediaProgress.t) : Prog unit :=
  modify (fun s => assign progress (LocalMediaProgress.set_lastServerSync (Some (clock s))) s).

(** AppDelegate.checkForSyncIssues: asks the manager about the item id
    "any" and logs when it is pending. *)
Definition checkForSyncIssues (env : Env) (s : State) : list Event :=
  if hasPendingSync env s "any"
  then [Log (LogBackground "User has pending ebook progress syncs")]
  else [].

(** The seconds slept in a trace, in order. *)
Definition sleeps (t : list Event) : list Q :=
  flat_map (fun e => match e with Sleep seconds => [seconds] | _ => [] end) t.

(** What identifies a stored object to the queries: its primary key and the
    local item it belongs to. *)
Definition keysOf (p : LocalMediaProgress.t) : string * string :=
  (LocalMediaProgress.id p, LocalMediaProgress.localLibraryItemId p).

(** The fetch for [sid] finds nothing ahead of the local record [l]: no
    server progress at all, or one that is strictly behind. *)
Definition serverNotAhead (env : Env) (sid : string) (l : LocalMediaProgress.t) : Prop :=
  ApiClient_getResource env sid = GetFailure false \/
  exists server,
    ApiClient_getResource env sid = GetSuccess server /\
    (MediaProgress.ebookProgress server < LocalMediaProgress.ebookProgress l)%Q.

(** The payload of a push of the local record [l] as it is. *)
Definition payloadOfLocal (l : LocalMediaProgress.t) : ProgressData.t :=
  {| ProgressData.ebookLocation := default "" (LocalMediaProgress.ebookLocation l);
     ProgressData.ebookProgress := LocalMediaProgress.ebookProgress l;
     ProgressData.lastUpdate := LocalMediaProgress.lastUpdate l;
     ProgressData.isFinished := LocalMediaProgress.isFinished l |}.

(** ** More scenarios *)

(** Scenario B: local at 0.6, the server at 0.3 but five minutes newer. *)
Definition aheadLocal : LocalMediaProgress.t := localProgressOf (Some "A") 0.6 epoch None.
Definition newerBehindServer : MediaProgress.t := serverProgressOf 0.3 (epoch + 300000).
Definition aheadLocalState : State := deviceWith [aheadLocal] ∅.
Definition newerBehindEnv : Env :=
  onlineWith "A" (GetSuccess newerBehindServer) (PatchSuccess true).

(** The state in which a call below the retry maximum enters its do/catch
    block: the backoff of a retry has been slept. *)
Definition afterBackoff (s : State) (progress : LocalMediaProgress.t) : State :=
  if (0 <? currentRetriesOf s progress)%nat
  then set_clock
         (fun now => (now + calculateRetryDelay (currentRetriesOf s progress) * 1000)%Q) s
  else s.

(** No connectivity, with and without a server configuration. *)
Definition offline : Env :=
  {| Store_serverConfig := Some {| ServerConnectionConfig.id := "A" |};
     ApiClient_isConnectedToInternet := false;
     Realm_opens := true;
     Realm_writes := true;
     ApiClient_getResource := fun _ => GetFailure true;
     ApiClient_patchResource := fun _ _ => PatchFailure |}.
Definition offlineNoConfig : Env :=
  {| Store_serverConfig := None;
     ApiClient_isConnectedToInternet := false;
     Realm_opens := true;
     Realm_writes := true;
     ApiClient_getResource := fun _ => GetFailure true;
     ApiClient_patchResource := fun _ _ => PatchFailure |}.

(** The pending record after five failed attempts. *)
Definition exhaustedState : State := deviceWith [pendingLocal] {[ "progress-1" := 5%nat ]}.

(** A record of server "A" that has never been given an ebook location. *)
Definition noLocationLocal : LocalMediaProgress.t :=
  {| LocalMediaProgress.id := "progress-3";
     LocalMediaProgress.localLibraryItemId := "local-item-1";
     LocalMediaProgress.serverConnectionConfigId := Some "A";
     LocalMediaProgress.ebookLocation := None;
     LocalMediaProgress.ebookProgress := 0;
     LocalMediaProgress.lastUpdate := epoch;
     LocalMediaProgress.isFinished := false;
     LocalMediaProgress.lastServerSync := None |}.

(** A run that changes nothing and contacts nobody. *)
Definition inert {A : Type} (p : Prog A) (s : State) : Prop :=
  stateAfter p s = s /\ transportCalls (traceOf p s) = [].

(** The pending record after four failed attempts. *)
Definition fourFailuresState : State := deviceWith [pendingLocal] {[ "progress-1" := 4%nat ]}.

(** A record synced a minute before the current time. *)
Definition syncedLocal : LocalMediaProgress.t :=
  localProgressOf (Some "A") 0.4 epoch (Some (epoch + 60000)%Q).
Definition syncedState : State := deviceWith [syncedLocal] ∅.

(** A server whose clock runs ten minutes ahead of the device. *)
Definition skewedServer : MediaProgress.t := serverProgressOf 0.5 (epoch + 720000)%Q.
Definition skewedEnv : Env := onlineWith "A" (GetSuccess skewedServer) (PatchSuccess true).

(** * The web side

    The JavaScript that drives the sync from the reader (the methods added to
    AbsDatabase.js and to EpubReader.vue) and the bookmarks modal.  An
    [async] method is a function to its settled promise and the effects it
    had, in order; what the plugins and the server answer is a parameter. *)

From Stdlib Require Import Qround.

Inductive Promise (A : Type) : Type :=
| Resolved (a : A)
| Rejected.

Arguments Resolved {A} a.
Arguments Rejected {A}.

(** JavaScript truthiness of a string that may be undefined. *)
Definition truthy (x : option string) : bool :=
  match x with
  | Some text => negb (String.eqb text "")
  | None => false
  end.

Module Reader.

(** [{ success, error }] and [{ hasPendingSync }] as the plugin answers. *)
Record SyncResult := { success : bool; error : option string }.
Record StatusResult := { hasPendingSync : bool }.

(** [{ ebookLocation, ebookProgress }] *)
Record Payload := { ebookLocation : string; ebookProgress : Q }.

Inductive Effect :=
| NativeSync (localLibraryItemId : string)       (* AbsDatabase.syncEbookProgressToServer *)
| NativeCheck (localLibraryItemId : string)      (* AbsDatabase.checkEbookSyncStatus *)
| DbUpdateLocal (localLibraryItemId : string) (payload : Payload)
| Commit (localMediaProgress : string)           (* globals/updateLocalMediaProgress *)
| HttpPatch (serverLibraryItemId : string) (payload : Payload)
| ToastError (message : string)
| ToastSuccess (message : string)
| ConsoleError.

(** The native plugin, the local database and the HTTP client. *)
Record World := {
  platform : string;
  AbsDatabase_syncEbookProgressToServer : string -> Promise SyncResult;
  AbsDatabase_checkEbookSyncStatus : string -> Promise StatusResult;
  db_updateLocalEbookProgress : string -> Payload -> Promise (option string);
  nativeHttp_patch : string -> Payload -> Promise unit
}.

(** The reader component's own fields. *)
Record Component := {
  keepProgress : bool;
  localLibraryItemId : option string;
  serverLibraryItemId : option string
}.

(** AbsDatabase.js: manual sync method for the "sync progress to server"
    button. *)
Definition syncEbookProgressToServer (w : World) (localLibraryItemId : string)
  : Promise SyncResult * list Effect :=
  if negb (String.eqb (platform w) "capacitor")
  then (Resolved {| success := false; error := Some "Not supported on web" |}, [])
  else (AbsDatabase_syncEbookProgressToServer w localLibraryItemId,
        [NativeSync localLibraryItemId]).

(** AbsDatabase.js: check sync status for UI indicators. *)
Definition checkEbookSyncStatus (w : World) (localLibraryItemId : string)
  : Promise StatusResult * list Effect :=
  if negb (String.eqb (platform w) "capacitor")
  then (Resolved {| hasPendingSync := false |}, [])
  else (AbsDatabase_checkEbookSyncStatus w localLibraryItemId,
        [NativeCheck localLibraryItemId]).

(** EpubReader: new method to manually sync progress to server. *)
Definition manualSyncToServer (w : World) (c : Component) : bool * list Effect :=
  if negb (truthy (localLibraryItemId c))
  then (false, [ToastError "No local item to sync"])
  else
    match syncEbookProgressToServer w (default "" (localLibraryItemId c)) with
    | (Resolved result, effects) =>
        if success result
        then (true, effects ++ [ToastSuccess "Progress synced to server"])
        else (false,
              effects ++ [ToastError (if truthy (error result)
                                      then default "" (error result)
                                      else "Failed to sync progress")])
    | (Rejected, effects) =>
        (false, effects ++ [ConsoleError; ToastError "Failed to sync progress"])
    end.

(** EpubReader: check if this item has pending sync. *)
Definition checkSyncStatus (w : World) (c : Component) : bool * list Effect :=
  if negb (truthy (localLibraryItemId c))
  then (false, [])
  else
    match checkEbookSyncStatus w (default "" (localLibraryItemId c)) with
    | (Resolved result, effects) => (hasPendingSync result, effects)
    | (Rejected, effects) => (false, effects ++ [ConsoleError])
    end.

(** EpubReader: updated updateProgress method. *)
Definition updateProgress (w : World) (c : Component) (payload : Payload)
  : Promise unit * list Effect :=
  if negb (keepProgress c) then (Resolved tt, [])
  else
    let server :=
      if truthy (serverLibraryItemId c)
      then
        match nativeHttp_patch w (default "" (serverLibraryItemId c)) payload with
        | Resolved _ => [HttpPatch (default "" (serverLibraryItemId c)) payload]
        | Rejected => [HttpPatch (default "" (serverLibraryItemId c)) payload; ConsoleError]
        end
      else [] in
    if truthy (localLibraryItemId c)
    then
      match db_updateLocalEbookProgress w (default "" (localLibraryItemId c)) payload with
      | Resolved localMediaProgress =>
          (Resolved tt,
           DbUpdateLocal (default "" (localLibraryItemId c)) payload
             :: match localMediaProgress with
                | Some progress => [Commit progress]
                | None => []
                end
             ++ server)
      | Rejected => (Rejected, [DbUpdateLocal (default "" (localLibraryItemId c)) payload])
      end
    else (Resolved tt, server).

Definition toasts (effects : list Effect) : list Effect :=
  List.filter (fun e => match e with ToastError _ | ToastSuccess _ => true | _ => false end)
    effects.

Definition nativeCalls (effects : list Effect) : list Effect :=
  List.filter (fun e => match e with NativeSync _ | NativeCheck _ => true | _ => false end)
    effects.

Definition serverPatches (effects : list Effect) : list Effect :=
  List.filter (fun e => match e with HttpPatch _ _ => true | _ => false end) effects.

End Reader.

(** A downloaded book in the reader, on the web and on a device whose plugin
    reports a failure without a message. *)
Definition downloadedBook : Reader.Component :=
  {| Reader.keepProgress := true;
     Reader.localLibraryItemId := Some "local-item-1";
     Reader.serverLibraryItemId := Some "server-item-1" |}.
Definition webWorld : Reader.World :=
  {| Reader.platform := "web";
     Reader.AbsDatabase_syncEbookProgressToServer :=
       fun _ => Resolved {| Reader.success := true; Reader.error := None |};
     Reader.AbsDatabase_checkEbookSyncStatus :=
       fun _ => Resolved {| Reader.hasPendingSync := true |};
     Reader.db_updateLocalEbookProgress := fun _ _ => Rejected;
     Reader.nativeHttp_patch := fun _ _ => Rejected |}.
Definition silentFailureWorld : Reader.World :=
  {| Reader.platform := "capacitor";
     Reader.AbsDatabase_syncEbookProgressToServer :=
       fun _ => Resolved {| Reader.success := false; Reader.error := Some "" |};
     Reader.AbsDatabase_checkEbookSyncStatus :=
       fun _ => Resolved {| Reader.hasPendingSync := true |};
     Reader.db_updateLocalEbookProgress := fun _ _ => Rejected;
     Reader.nativeHttp_patch := fun _ _ => Rejected |}.

(** ** The bookmarks modal (BookmarksModal.vue) *)

Module Bookmarks.

(** A JavaScript number that may be NaN (the [playbackRate] prop). *)
Inductive JsNumber :=
| NaN
| Num (q : Q).

Record Bookmark := { id : string; title : string; time : Q }.

Record Props := {
  value : bool;
  bookmarks : list Bookmark;
  currentTime : Q;
  playbackRate : JsNumber;
  libraryItemId : string
}.

Record Data := {
  selectedBookmark : option Bookmark;
  showBookmarkTitleInput : bool;
  newBookmarkTitle : string
}.

Inductive Effect :=
| HapticsImpact
| DialogConfirm                                           (* 'Remove Bookmark' *)
| HttpDelete (libraryItemId : string) (time : Q)
| HttpPatch (libraryItemId : string) (bookmark : Bookmark)
| HttpPost (libraryItemId : string) (title : string) (time : Z)
| CommitDeleteBookmark (libraryItemId : string) (time : Q)
| CommitUpdateBookmark (bookmark : Bookmark)
| ToastError (message : string)
| ToastSuccess (message : string)
| ConsoleError
| EmitInput (val : bool)                                  (* this.show = val *)
| EmitSelect (bookmark : Bookmark).

Record World := {
  confirmValue : bool;                        (* what Dialog.confirm resolves with *)
  http_delete : Promise unit;
  http_patch : Promise Bookmark;              (* resolves with the stored bookmark *)
  http_post : Promise unit;
  formattedNow : string                       (* $formatDate(Date.now(), ..) *)
}.

(** [{ ...bookmark, title }] *)
Definition withTitle (newTitle : string) (bookmark : Bookmark) : Bookmark :=
  {| id := id bookmark; title := newTitle; time := time bookmark |}.

(** Computed properties. *)
Definition canCreateBookmark (props : Props) : bool :=
  match List.find (fun bm => Qeq_bool (time bm) (currentTime props)) (bookmarks props) with
  | Some _ => false
  | None => true
  end.

Definition _playbackRate (props : Props) : Q :=
  match playbackRate props with
  | NaN => 1
  | Num rate => if Qeq_bool rate 0 then 1 else rate
  end.

(** [watch: show(newVal)] *)
Definition watchShow (newVal : bool) (d : Data) : Data :=
  if newVal
  then {| selectedBookmark := selectedBookmark d;
          showBookmarkTitleInput := false;
          newBookmarkTitle := "" |}
  else d.

(** Methods. *)
Definition editBookmark (bm : Bookmark) (d : Data) : Data :=
  {| selectedBookmark := Some bm;
     showBookmarkTitleInput := true;
     newBookmarkTitle := title bm |}.

Definition createBookmark (d : Data) : Data :=
  {| selectedBookmark := None;
     showBookmarkTitleInput := true;
     newBookmarkTitle := "" |}.

Definition deleteBookmark (w : World) (props : Props) (bm : Bookmark) : list Effect :=
  HapticsImpact :: DialogConfirm ::
  if negb (confirmValue w) then []
  else
    HttpDelete (libraryItemId props) (time bm) ::
    match http_delete w with
    | Resolved _ => [CommitDeleteBookmark (libraryItemId props) (time bm)]
    | Rejected => [ToastError "ToastBookmarkRemoveFailed"; ConsoleError]
    end.

Definition clickBookmark (bm : Bookmark) : list Effect := [HapticsImpact; EmitSelect bm].

Definition submitUpdateBookmark (w : World) (props : Props) (updatedBookmark : Bookmark)
    (d : Data) : Data * list Effect :=
  match http_patch w with
  | Resolved bookmark =>
      ({| selectedBookmark := selectedBookmark d;
          showBookmarkTitleInput := false;
          newBookmarkTitle := newBookmarkTitle d |},
       [HttpPatch (libraryItemId props) updatedBookmark; CommitUpdateBookmark bookmark])
  | Rejected =>
      (d, [HttpPatch (libraryItemId props) updatedBookmark;
           ToastError "ToastBookmarkUpdateFailed"; ConsoleError])
  end.

(** The post is sent, the fields are reset and the modal is closed at once;
    the toast follows when the request settles. *)
Definition submitCreateBookmark (w : World) (props : Props) (d : Data)
  : Data * list Effect :=
  let newBookmarkTitle :=
    if String.eqb (newBookmarkTitle d) "" then formattedNow w else newBookmarkTitle d in
  ({| selectedBookmark := selectedBookmark d;
      showBookmarkTitleInput := false;
      newBookmarkTitle := "" |},
   HttpPost (libraryItemId props) newBookmarkTitle (Qfloor (currentTime props)) ::
   EmitInput false ::
   match http_post w with
   | Resolved _ => [ToastSuccess "Bookmark added"]
   | Rejected => [ToastError "ToastBookmarkCreateFailed"; ConsoleError]
   end).

Definition submitBookmark (w : World) (props : Props) (d : Data) : Data * list Effect :=
  match selectedBookmark d with
  | Some selected =>
      match submitUpdateBookmark w props (withTitle (newBookmarkTitle d) selected) d with
      | (d', effects) => (d', HapticsImpact :: effects)
      end
  | None =>
      match submitCreateBookmark w props d with
      | (d', effects) => (d', HapticsImpact :: effects)
      end
  end.

(** Typing into the note input ([v-model="newBookmarkTitle"]). *)
Definition typeTitle (text : string) (d : Data) : Data :=
  {| selectedBookmark := selectedBookmark d;
     showBookmarkTitleInput := showBookmarkTitleInput d;
     newBookmarkTitle := text |}.

Definition isRequest (e : Effect) : bool :=
  match e with
  | HttpDelete _ _ | HttpPatch _ _ | HttpPost _ _ _ => true
  | _ => false
  end.

End Bookmarks.

(** The player at 12.5 s, with a bookmark made there a moment ago. *)
Definition halfwayProps : Bookmarks.Props :=
  {| Bookmarks.value := true;
     Bookmarks.bookmarks :=
       [ {| Bookmarks.id := "bookmark-1"; Bookmarks.title := "Chapter 2";
            Bookmarks.time := 12 |} ];
     Bookmarks.currentTime := 12.5;
     Bookmarks.playbackRate := Bookmarks.Num 1;
     Bookmarks.libraryItemId := "server-item-1" |}.
(** * Properties *)

(** ** Running composed tasks *)

Section RunLaws.
Context {A B : Type}.

Lemma run_bind (p : Prog A) (f : A -> Prog B) (s : State) :
  run (bind p f) s =
  match run p s with
  | (Returned a, s', t) =>
      match run (f a) s' with
      | (r, s'', t') => (r, s'', t ++ t')
      end
  | (Thrown e, s', t) => (Thrown e, s', t)
  end.
Proof.
  revert s; induction p as [a|e|k IH|s0 k IH|e k IH|k IH]; intros s; simpl.
  - destruct (run (f a) s) as [[r s''] t']; reflexivity.
  - reflexivity.
  - apply IH.
  - apply IH.
  - rewrite IH. destruct (run k s) as [[[a|e'] s'] t]; simpl; [|reflexivity].
    destruct (run (f a) s') as [[r s''] t']; reflexivity.
  - apply IH.
Qed.

Lemma run_catch (p : Prog A) (h : Error -> Prog A) (s : State) :
  run (catch p h) s =
  match run p s with
  | (Returned a, s', t) => (Returned a, s', t)
  | (Thrown e, s', t) =>
      match run (h e) s' with
      | (r, s'', t') => (r, s'', t ++ t')
      end
  end.
Proof.
  revert s; induction p as [a|e|k IH|s0 k IH|e k IH|k IH]; intros s; simpl.
  - reflexivity.
  - destruct (run (h e) s) as [[r s''] t']; reflexivity.
  - apply IH.
  - apply IH.
  - rewrite IH. destruct (run k s) as [[[a|e'] s'] t]; simpl; [reflexivity|].
    destruct (run (h e') s') as [[r s''] t']; reflexivity.
  - apply IH.
Qed.
End RunLaws.

(** Executing segment by segment is executing to the end: the interleaved
    semantics extends the sequential one. *)
Lemma run_segment {A : Type} (p : Prog A) (s : State) :
  run p s =
  match segment p s with
  | (p', s', t) =>
      match run p' s' with
      | (r, s'', t') => (r, s'', t ++ t')
      end
  end.
Proof.
  revert s; induction p as [a|e|k IH|s0 k IH|e k IH|k IH]; intros s; simpl.
  - reflexivity.
  - reflexivity.
  - apply IH.
  - apply IH.
  - rewrite IH. destruct (segment k s) as [[p' s'] t].
    destruct (run p' s') as [[r s''] t']; reflexivity.
  - destruct (run k s) as [[r s''] t']; reflexivity.
Qed.

(** ** Comparisons of doubles *)

Lemma gt_true (a b : Q) : gt a b = true <-> (b < a)%Q.
Proof.
  unfold gt. rewrite negb_true_iff, <- not_true_iff_false, Qle_bool_iff.
  split; [apply Qnot_le_lt | apply Qlt_not_le].
Qed.

Lemma gt_false (a b : Q) : gt a b = false <-> (a <= b)%Q.
Proof.
  unfold gt. rewrite negb_false_iff, Qle_bool_iff. reflexivity.
Qed.

(** ** Realm objects *)

Lemma sameObject_refl (p : LocalMediaProgress.t) : sameObject p p = true.
Proof. apply String.eqb_refl. Qed.

Lemma deref_stored (s : State) (progress l : LocalMediaProgress.t) :
  List.find (sameObject progress) (localMediaProgress s) = Some l ->
  deref s progress = l.
Proof. intros H. unfold deref. rewrite H. reflexivity. Qed.

Lemma find_assign (progress : LocalMediaProgress.t)
    (f : LocalMediaProgress.t -> LocalMediaProgress.t) (objects : list LocalMediaProgress.t) :
  (forall p, LocalMediaProgress.id (f p) = LocalMediaProgress.id p) ->
  List.find (sameObject progress)
    (List.map (fun p => if sameObject progress p then f p else p) objects)
  = f <$> List.find (sameObject progress) objects.
Proof.
  intros Hid. induction objects as [|p objects IH]; simpl; [reflexivity|].
  destruct (sameObject progress p) eqn:Hp.
  - assert (sameObject progress (f p) = true) as ->; [|reflexivity].
    unfold sameObject in *. rewrite Hid. exact Hp.
  - rewrite Hp. exact IH.
Qed.

(** Reading back an assigned object. *)
Lemma deref_assign (s : State) (progress l : LocalMediaProgress.t)
    (f : LocalMediaProgress.t -> LocalMediaProgress.t) :
  (forall p, LocalMediaProgress.id (f p) = LocalMediaProgress.id p) ->
  List.find (sameObject progress) (localMediaProgress s) = Some l ->
  deref (assign progress f s) progress = f l.
Proof.
  intros Hid Hl. unfold deref, assign. simpl.
  rewrite find_assign by exact Hid. rewrite Hl. reflexivity.
Qed.

(** ** One call of syncProgressItem *)

Arguments getServerLibraryItemId : simpl never.
Arguments syncAttempt : simpl never.
Arguments syncProgressItem : simpl never.

Ltac unfold_attempt :=
  unfold syncAttempt, resolveProgressConflicts, fetchServerProgress, sendProgressToServer,
    markProgressAsSynced, updateLocalProgressFromServer, realmWrite.

Ltac exec := cbn [run catch bind get log emit modify await fst snd].

(** Case analysis on what the collaborators answer, in program order. *)
Ltac branch :=
  match goal with
  | |- context [match getServerLibraryItemId ?e ?s ?p with _ => _ end] =>
      destruct (getServerLibraryItemId e s p) eqn:?
  | |- context [match ApiClient_getResource ?e ?x with _ => _ end] =>
      destruct (ApiClient_getResource e x) as [?|[]] eqn:?
  | |- context [if gt ?a ?b then _ else _] => destruct (gt a b) eqn:?
  | |- context [if Realm_opens ?e && Realm_writes ?e then _ else _] =>
      destruct (Realm_opens e && Realm_writes e) eqn:?
  | |- context [match ApiClient_patchResource ?e ?x ?d with _ => _ end] =>
      destruct (ApiClient_patchResource e x d) as [[]|] eqn:?
  end.

(** The shape of every call: give up at the maximum, otherwise wait out the
    backoff if this is a retry, log the attempt and enter the do/catch block. *)
Lemma run_syncProgressItem (env : Env) (progress : LocalMediaProgress.t) (s : State) :
  run (syncProgressItem env progress) s =
  let currentRetries := currentRetriesOf s progress in
  if (maxRetryAttempts <=? currentRetries)%nat then
    (Returned tt, set_retryAttempts (delete (LocalMediaProgress.id progress)) s,
     [Log (LogMaxRetry (LocalMediaProgress.id progress))])
  else if (0 <? currentRetries)%nat then
    let s1 := set_clock (fun now => (now + calculateRetryDelay currentRetries * 1000)%Q) s in
    match run (syncAttempt env progress currentRetries) s1 with
    | (r, s', t) =>
        (r, s', Sleep (calculateRetryDelay currentRetries)
                :: Log (LogSyncing (LocalMediaProgress.localLibraryItemId (deref s1 progress))
                          (currentRetries + 1)) :: t)
    end
  else
    match run (syncAttempt env progress currentRetries) s with
    | (r, s', t) =>
        (r, s', Log (LogSyncing (LocalMediaProgress.localLibraryItemId (deref s progress))
                       (currentRetries + 1)) :: t)
    end.
Proof.
  unfold syncProgressItem, currentRetriesOf. cbn [run get bind].
  destruct (maxRetryAttempts <=? _)%nat; [reflexivity|].
  destruct (0 <? _)%nat; cbn [run get bind sleep log emit modify await];
    match goal with |- context [run (syncAttempt ?e ?p ?n) ?s'] =>
      destruct (run (syncAttempt e p n) s') as [[r s''] t] end; reflexivity.
Qed.

(** The do/catch block absorbs every error, and logs no attempt of its own. *)
Lemma syncAttempt_returns (env : Env) (progress : LocalMediaProgress.t) (n : nat) (s : State) :
  outcomeOf (syncAttempt env progress n) s = Returned tt /\
  List.filter isItemStart (traceOf (syncAttempt env progress n) s) = [].
Proof.
  unfold outcomeOf, traceOf. unfold_attempt. exec.
  repeat (branch; exec); split; reflexivity.
Qed.

Lemma syncAttempt_no_mapping (env : Env) (progress : LocalMediaProgress.t) (n : nat)
    (s : State) :
  getServerLibraryItemId env s progress = None ->
  run (syncAttempt env progress n) s
  = (Returned tt, s, [Log (LogNoServerItem (LocalMediaProgress.id progress))]).
Proof.
  intros Hnone. unfold syncAttempt. exec. rewrite Hnone. reflexivity.
Qed.

(** [syncProgressItem] never throws, and logs exactly one attempt (or the
    refusal of one) per call. *)
Lemma syncProgressItem_returns (env : Env) (progress : LocalMediaProgress.t) (s : State) :
  outcomeOf (syncProgressItem env progress) s = Returned tt /\
  attempts (traceOf (syncProgressItem env progress) s) = 1%nat.
Proof.
  unfold outcomeOf, traceOf, attempts. rewrite run_syncProgressItem. cbv zeta.
  destruct (maxRetryAttempts <=? _)%nat; [split; reflexivity|].
  destruct (0 <? _)%nat;
    match goal with |- context [run (syncAttempt ?e ?p ?n) ?s'] =>
      destruct (syncAttempt_returns e p n s') as [Hr Ht];
      unfold outcomeOf, traceOf in Hr, Ht;
      destruct (run (syncAttempt e p n) s') as [[r s''] t] end;
    simpl in *; rewrite Ht; (split; [exact Hr | reflexivity]).
Qed.

(** One iteration of a loop whose body returns. *)
Lemma run_forEach_cons {X : Type} (x : X) (xs : list X) (body : X -> Prog unit)
    (s : State) :
  outcomeOf (body x) s = Returned tt ->
  run (forEach (x :: xs) body) s =
  match run (forEach xs body) (stateAfter (body x) s) with
  | (r, s', t) => (r, s', traceOf (body x) s ++ t)
  end.
Proof.
  intros H. simpl. rewrite run_bind. unfold outcomeOf, stateAfter, traceOf in *.
  destruct (run (body x) s) as [[r s'] t]. simpl in *. subst r. reflexivity.
Qed.


Lemma attempts_app (t1 t2 : list Event) :
  attempts (t1 ++ t2) = (attempts t1 + attempts t2)%nat.
Proof. unfold attempts. rewrite List.filter_app. apply length_app. Qed.

(** A loop of [syncProgressItem] calls goes through all of its items. *)
Lemma forEach_syncProgressItem (env : Env) (items : list LocalMediaProgress.t) :
  forall s : State,
  outcomeOf (forEach items (fun progress => syncProgressItem env progress)) s = Returned tt /\
  attempts (traceOf (forEach items (fun progress => syncProgressItem env progress)) s)
  = length items.
Proof.
  induction items as [|progress items IH]; intros s; [split; reflexivity|].
  destruct (syncProgressItem_returns env progress s) as [Hr Ha].
  unfold outcomeOf, traceOf. rewrite run_forEach_cons by exact Hr.
  destruct (IH (stateAfter (syncProgressItem env progress) s)) as [IHr IHa].
  unfold outcomeOf, traceOf in IHr, IHa.
  destruct (run (forEach items _) _) as [[r s'] t]. cbn [fst snd] in *.
  split; [exact IHr|]. rewrite attempts_app, IHa, Ha. reflexivity.
Qed.

(** ** Conflict resolution on equal progress *)

Arguments deref : simpl never.
Arguments assign : simpl never.

(** C1 (as the code has it).  When the fetched server progress has the same
    [ebookProgress] as the local object, the timestamps decide: the local
    object is kept only if its [lastUpdate] is strictly more recent than the
    server's; otherwise, so also on an exact tie, the server's data is
    written onto the local object. *)
Theorem resolve_equal_progress_by_timestamp
    (env : Env) (s : State) (local : LocalMediaProgress.t) (server : MediaProgress.t)
    (sid : string) :
  Realm_opens env = true ->
  Realm_writes env = true ->
  ApiClient_getResource env sid = GetSuccess server ->
  (LocalMediaProgress.ebookProgress (deref s local) == MediaProgress.ebookProgress server)%Q ->
  ((MediaProgress.lastUpdate server < LocalMediaProgress.lastUpdate (deref s local))%Q ->
   run (resolveProgressConflicts env local sid) s
   = (Returned local, s, [GetResource sid; Log LogEqualLocalRecent]))
  /\
  ((LocalMediaProgress.lastUpdate (deref s local) <= MediaProgress.lastUpdate server)%Q ->
   run (resolveProgressConflicts env local sid) s
   = (Returned local,
      assign local (LocalMediaProgress.updateFromServerMediaProgress server) s,
      [GetResource sid; Log LogEqualServerRecent])).
Proof.
  intros Hopen Hwrite Hget Heq.
  assert (gt (LocalMediaProgress.ebookProgress (deref s local))
             (MediaProgress.ebookProgress server) = false) as Hlocal.
  { apply gt_false. rewrite Heq. apply Qle_refl. }
  assert (gt (MediaProgress.ebookProgress server)
             (LocalMediaProgress.ebookProgress (deref s local)) = false) as Hserver.
  { apply gt_false. rewrite Heq. apply Qle_refl. }
  split; intros Hts.
  - apply gt_true in Hts.
    unfold resolveProgressConflicts, fetchServerProgress. simpl.
    rewrite Hget. simpl. rewrite Hlocal, Hserver, Hts. reflexivity.
  - apply gt_false in Hts.
    unfold resolveProgressConflicts, fetchServerProgress, updateLocalProgressFromServer,
      realmWrite.
    simpl. rewrite Hget. simpl. rewrite Hlocal, Hserver, Hts, Hopen, Hwrite. reflexivity.
Qed.

Lemma resolve_equal_progress_by_timestamp_witness :
  (LocalMediaProgress.ebookProgress (deref tieState tieLocal)
   == MediaProgress.ebookProgress tieServer)%Q /\
  (LocalMediaProgress.lastUpdate (deref tieState tieLocal)
   <= MediaProgress.lastUpdate tieServer)%Q /\
  run (resolveProgressConflicts tieEnv tieLocal "server-item-1") tieState
  = (Returned tieLocal,
     assign tieLocal (LocalMediaProgress.updateFromServerMediaProgress tieServer) tieState,
     [GetResource "server-item-1"; Log LogEqualServerRecent]).
Proof.
  assert (LocalMediaProgress.ebookProgress (deref tieState tieLocal)
          == MediaProgress.ebookProgress tieServer)%Q as Heq by reflexivity.
  assert (LocalMediaProgress.lastUpdate (deref tieState tieLocal)
          <= MediaProgress.lastUpdate tieServer)%Q as Hle by (vm_compute; discriminate).
  split; [exact Heq|]. split; [exact Hle|].
  exact (proj2 (resolve_equal_progress_by_timestamp tieEnv tieState tieLocal tieServer
                  "server-item-1" eq_refl eq_refl eq_refl Heq) Hle).
Defined.

(** C1 (as stated) fails: with equal progress and exactly equal timestamps
    the specification's resolver answers [useLocal], but the manager takes
    the "server is more recent" branch and overwrites the local object. *)
Lemma tie_overwrites_local :
  (LocalMediaProgress.ebookProgress tieLocal == MediaProgress.ebookProgress tieServer)%Q /\
  (LocalMediaProgress.lastUpdate tieLocal == MediaProgress.lastUpdate tieServer)%Q /\
  spec_resolve tieLocal (Some tieServer) = useLocal /\
  traceOf (resolveProgressConflicts tieEnv tieLocal "server-item-1") tieState
  = [GetResource "server-item-1"; Log LogEqualServerRecent] /\
  LocalMediaProgress.ebookLocation
    (deref (stateAfter (resolveProgressConflicts tieEnv tieLocal "server-item-1") tieState)
       tieLocal)
  = Some chapter2 /\
  stateAfter (resolveProgressConflicts tieEnv tieLocal "server-item-1") tieState <> tieState.
Proof.
  repeat split; try reflexivity.
  intros H.
  apply (f_equal (fun s => LocalMediaProgress.ebookLocation (deref s tieLocal))) in H.
  vm_compute in H. discriminate H.
Qed.

(** ** The server is further *)

Lemma syncAttempt_server_further (env : Env) (progress l : LocalMediaProgress.t) (n : nat)
    (s : State) (sid : string) (server : MediaProgress.t) :
  Realm_opens env = true ->
  Realm_writes env = true ->
  List.find (sameObject progress) (localMediaProgress s) = Some l ->
  getServerLibraryItemId env s progress = Some sid ->
  ApiClient_getResource env sid = GetSuccess server ->
  (LocalMediaProgress.ebookProgress l < MediaProgress.ebookProgress server)%Q ->
  let updated := assign progress (LocalMediaProgress.updateFromServerMediaProgress server) s in
  run (syncAttempt env progress n) s =
  match ApiClient_patchResource env sid (payloadOf server) with
  | PatchSuccess true =>
      (Returned tt,
       set_retryAttempts (delete (LocalMediaProgress.id progress))
         (assign progress (LocalMediaProgress.set_lastServerSync (Some (clock s))) updated),
       [GetResource sid; Log LogServerFurther; PatchResource sid (payloadOf server);
        Log (LogSynced sid)])
  | _ =>
      (Returned tt,
       set_retryAttempts (<[LocalMediaProgress.id progress := (n + 1)%nat]>) updated,
       [GetResource sid; Log LogServerFurther; PatchResource sid (payloadOf server);
        Log (LogFailedWillRetry (LocalMediaProgress.id progress))])
  end.
Proof.
  intros Hopen Hwrite Hl Hsid Hget Hlt. cbv zeta.
  pose proof (deref_stored s progress l Hl) as Hderef.
  assert (gt (LocalMediaProgress.ebookProgress (deref s progress))
             (MediaProgress.ebookProgress server) = false) as Hlocal.
  { rewrite Hderef. apply gt_false. apply Qlt_le_weak. exact Hlt. }
  assert (gt (MediaProgress.ebookProgress server)
             (LocalMediaProgress.ebookProgress (deref s progress)) = true) as Hserver.
  { rewrite Hderef. apply gt_true. exact Hlt. }
  unfold_attempt. exec. rewrite Hsid. exec. rewrite Hget. exec.
  rewrite Hlocal, Hserver, Hopen, Hwrite. cbn [andb]. exec.
  rewrite (deref_assign s progress l) by (try exact Hl; intros; reflexivity).
  change {| ProgressData.ebookLocation := _; ProgressData.ebookProgress := _;
            ProgressData.lastUpdate := _; ProgressData.isFinished := _ |}
    with (payloadOf server).
  destruct (ApiClient_patchResource env sid (payloadOf server)) as [[]|]; reflexivity.
Qed.

Lemma find_stored_assign (s : State) (progress l : LocalMediaProgress.t)
    (f : LocalMediaProgress.t -> LocalMediaProgress.t) :
  (forall p, LocalMediaProgress.id (f p) = LocalMediaProgress.id p) ->
  List.find (sameObject progress) (localMediaProgress s) = Some l ->
  List.find (sameObject progress) (localMediaProgress (assign progress f s)) = Some (f l).
Proof.
  intros Hid Hl. unfold assign. simpl. rewrite find_assign by exact Hid. rewrite Hl.
  reflexivity.
Qed.

(** C2 (as the code has it).  When the fetched server progress is strictly
    further than the stored local record, the call writes the server's
    location, progress, finished flag and timestamp onto the local record and
    then pushes the resolved record, which now carries the server's own
    values, back to the server: one GET and one PATCH.  [lastServerSync] is
    set (to the current time) exactly when that push is answered with
    success; otherwise it keeps its value. *)
Theorem server_further_is_applied_then_pushed
    (env : Env) (s : State) (progress l : LocalMediaProgress.t) (sid : string)
    (server : MediaProgress.t) :
  Realm_opens env = true ->
  Realm_writes env = true ->
  (currentRetriesOf s progress < maxRetryAttempts)%nat ->
  List.find (sameObject progress) (localMediaProgress s) = Some l ->
  getServerLibraryItemId env s progress = Some sid ->
  ApiClient_getResource env sid = GetSuccess server ->
  (LocalMediaProgress.ebookProgress l < MediaProgress.ebookProgress server)%Q ->
  let s' := stateAfter (syncProgressItem env progress) s in
  transportCalls (traceOf (syncProgressItem env progress) s)
  = [GetResource sid; PatchResource sid (payloadOf server)] /\
  LocalMediaProgress.ebookLocation (deref s' progress) = MediaProgress.ebookLocation server /\
  LocalMediaProgress.ebookProgress (deref s' progress) = MediaProgress.ebookProgress server /\
  LocalMediaProgress.isFinished (deref s' progress) = MediaProgress.isFinished server /\
  LocalMediaProgress.lastUpdate (deref s' progress) = MediaProgress.lastUpdate server /\
  LocalMediaProgress.lastServerSync (deref s' progress)
  = match ApiClient_patchResource env sid (payloadOf server) with
    | PatchSuccess true => Some (clock s')
    | _ => LocalMediaProgress.lastServerSync l
    end.
Proof.
  intros Hopen Hwrite Hmax Hl Hsid Hget Hlt. cbv zeta.
  unfold traceOf, stateAfter. rewrite run_syncProgressItem. cbv zeta.
  replace (maxRetryAttempts <=? currentRetriesOf s progress)%nat with false
    by (symmetry; apply Nat.leb_gt; exact Hmax).
  assert (forall s1 : State,
            localMediaProgress s1 = localMediaProgress s ->
            getServerLibraryItemId env s1 progress = Some sid ->
            forall prefix : list Event, transportCalls prefix = [] ->
            let r := run (syncAttempt env progress (currentRetriesOf s progress)) s1 in
            transportCalls (prefix ++ r.2)
            = [GetResource sid; PatchResource sid (payloadOf server)] /\
            LocalMediaProgress.ebookLocation (deref r.1.2 progress)
            = MediaProgress.ebookLocation server /\
            LocalMediaProgress.ebookProgress (deref r.1.2 progress)
            = MediaProgress.ebookProgress server /\
            LocalMediaProgress.isFinished (deref r.1.2 progress)
            = MediaProgress.isFinished server /\
            LocalMediaProgress.lastUpdate (deref r.1.2 progress)
            = MediaProgress.lastUpdate server /\
            LocalMediaProgress.lastServerSync (deref r.1.2 progress)
            = match ApiClient_patchResource env sid (payloadOf server) with
              | PatchSuccess true => Some (clock r.1.2)
              | _ => LocalMediaProgress.lastServerSync l
              end) as Hattempt.
  { intros s1 Hobjects Hsid1 prefix Hprefix. cbv zeta.
    assert (List.find (sameObject progress) (localMediaProgress s1) = Some l) as Hl1
      by (rewrite Hobjects; exact Hl).
    rewrite (syncAttempt_server_further env progress l _ s1 sid server
               Hopen Hwrite Hl1 Hsid1 Hget Hlt).
    pose proof (find_stored_assign s1 progress l
                  (LocalMediaProgress.updateFromServerMediaProgress server)
                  (fun _ => eq_refl) Hl1) as Hupdated.
    unfold transportCalls in *. rewrite List.filter_app, Hprefix.
    destruct (ApiClient_patchResource env sid (payloadOf server)) as [[]|];
      cbn [fst snd];
      unfold deref; cbn [localMediaProgress set_retryAttempts];
      try rewrite (find_stored_assign _ progress _
                     (LocalMediaProgress.set_lastServerSync (Some (clock s1)))
                     (fun _ => eq_refl) Hupdated);
      try rewrite Hupdated;
      repeat split; reflexivity. }
  destruct (0 <? currentRetriesOf s progress)%nat.
  - specialize (Hattempt
      (set_clock (fun now => (now + calculateRetryDelay (currentRetriesOf s progress) * 1000)%Q) s)
      eq_refl Hsid
      [Sleep (calculateRetryDelay (currentRetriesOf s progress));
       Log (LogSyncing
              (LocalMediaProgress.localLibraryItemId
                 (deref (set_clock
                           (fun now => (now + calculateRetryDelay
                                                (currentRetriesOf s progress) * 1000)%Q) s)
                    progress))
              (currentRetriesOf s progress + 1))]
      eq_refl).
    cbv zeta in Hattempt.
    destruct (run (syncAttempt env progress (currentRetriesOf s progress)) _) as [[r s'] t].
    exact Hattempt.
  - specialize (Hattempt s eq_refl Hsid
      [Log (LogSyncing (LocalMediaProgress.localLibraryItemId (deref s progress))
              (currentRetriesOf s progress + 1))]
      eq_refl).
    cbv zeta in Hattempt.
    destruct (run (syncAttempt env progress (currentRetriesOf s progress)) _) as [[r s'] t].
    exact Hattempt.
Qed.

Lemma server_further_is_applied_then_pushed_witness :
  let s' := stateAfter (syncProgressItem aheadEnv behindLocal) behindState in
  (LocalMediaProgress.ebookProgress behindLocal < MediaProgress.ebookProgress aheadServer)%Q /\
  transportCalls (traceOf (syncProgressItem aheadEnv behindLocal) behindState)
  = [GetResource "server-item-1"; PatchResource "server-item-1" (payloadOf aheadServer)] /\
  LocalMediaProgress.ebookProgress (deref s' behindLocal) = 0.5%Q /\
  LocalMediaProgress.lastServerSync (deref s' behindLocal) = Some (clock s').
Proof.
  assert (LocalMediaProgress.ebookProgress behindLocal
          < MediaProgress.ebookProgress aheadServer)%Q as Hlt by reflexivity.
  assert (currentRetriesOf behindState behindLocal < maxRetryAttempts)%nat as Hmax
    by (vm_compute; lia).
  destruct (server_further_is_applied_then_pushed aheadEnv behindState behindLocal behindLocal
              "server-item-1" aheadServer eq_refl eq_refl Hmax eq_refl eq_refl eq_refl Hlt)
    as (Ht & _ & Hp & _ & _ & Hs).
  cbv zeta. split; [exact Hlt|]. split; [exact Ht|]. split; [exact Hp|]. exact Hs.
Defined.

(** C2 (as stated) fails: in scenario C the resolution is [useServer], and
    the call still performs a push. *)
Lemma server_wins_still_pushes :
  spec_resolve behindLocal (Some aheadServer) = useServer /\
  pushes (traceOf (syncProgressItem aheadEnv behindLocal) behindState) = 1%nat /\
  traceOf (syncProgressItem aheadEnv behindLocal) behindState
  = [Log (LogSyncing "local-item-1" 1); GetResource "server-item-1"; Log LogServerFurther;
     PatchResource "server-item-1" (payloadOf aheadServer); Log (LogSynced "server-item-1")].
Proof. repeat split; reflexivity. Qed.

(** ** Manual sync of a record of another server *)

(** C3 (evaluation at the failing input).  Scenario D: the record was
    downloaded from server "A", the active connection is "B".
    [manualSyncProgress] has no check of [serverConnectionConfigId]: it
    fetches and pushes the record to the active server and reports success.
    The pending listing and [needsServerSync] do make that check. *)
Lemma manual_sync_ignores_server_mismatch :
  LocalMediaProgress.serverConnectionConfigId offServerLocal = Some "A" /\
  Store_serverConfig offServerEnv = Some {| ServerConnectionConfig.id := "B" |} /\
  outcomeOf (manualSyncProgress offServerEnv "local-item-1") offServerState = Returned true /\
  transportCalls (traceOf (manualSyncProgress offServerEnv "local-item-1") offServerState)
  = [GetResource "server-item-1";
     PatchResource "server-item-1"
       {| ProgressData.ebookLocation := chapter1;
          ProgressData.ebookProgress := 0.4;
          ProgressData.lastUpdate := epoch;
          ProgressData.isFinished := false |}] /\
  needsServerSync offServerEnv offServerLocal = false /\
  List.filter (isPendingFor "B") (localMediaProgress offServerState) = [].
Proof. repeat split; reflexivity. Qed.

(** ** Triggers that overlap *)

Lemma flagSafe_bind {A B : Type} (p : Prog A) (f : A -> Prog B) :
  forall s : State,
  flagSafe p s -> (forall a s', flagSafe (f a) s') -> flagSafe (bind p f) s.
Proof.
  induction p as [a|e|k IH|s0 k IH|e k IH|k IH]; intros s Hp Hf; simpl in *.
  - apply Hf.
  - exact I.
  - apply IH; assumption.
  - destruct Hp as [Hflag Hp]. split; [exact Hflag | apply IH; assumption].
  - apply IH; assumption.
  - intros s'. apply IH; [apply Hp | assumption].
Qed.

Lemma flagSafe_catch {A : Type} (p : Prog A) (h : Error -> Prog A) :
  forall s : State,
  flagSafe p s -> (forall e s', flagSafe (h e) s') -> flagSafe (catch p h) s.
Proof.
  induction p as [a|e|k IH|s0 k IH|e k IH|k IH]; intros s Hp Hh; simpl in *.
  - exact I.
  - apply Hh.
  - apply IH; assumption.
  - destruct Hp as [Hflag Hp]. split; [exact Hflag | apply IH; assumption].
  - apply IH; assumption.
  - intros s'. apply IH; [apply Hp | assumption].
Qed.

Lemma flagSafe_forEach {X : Type} (xs : list X) (body : X -> Prog unit) :
  (forall x s, flagSafe (body x) s) -> forall s, flagSafe (forEach xs body) s.
Proof.
  intros Hbody. induction xs as [|x xs IH]; intros s; [exact I|].
  cbn [forEach]. apply flagSafe_bind; [apply Hbody | intros _ s'; apply IH].
Qed.

Lemma flagSafe_syncAttempt (env : Env) (progress : LocalMediaProgress.t) (n : nat) (s : State) :
  flagSafe (syncAttempt env progress n) s.
Proof.
  unfold_attempt. cbn [flagSafe catch bind get log emit modify await].
  repeat
    (first
       [ branch
       | match goal with
         | |- _ /\ _ => split
         | |- forall _ : State, _ => intros ?
         | |- True => exact I
         | |- isCurrentlySyncing _ = isCurrentlySyncing _ => reflexivity
         end ];
     cbn [flagSafe catch bind get log emit modify await]).
Qed.

Lemma flagSafe_syncProgressItem (env : Env) (progress : LocalMediaProgress.t) (s : State) :
  flagSafe (syncProgressItem env progress) s.
Proof.
  unfold syncProgressItem, sleep. cbn [flagSafe bind get log emit modify await].
  destruct (maxRetryAttempts <=? _)%nat;
    cbn [flagSafe bind get log emit modify await]; [split; [reflexivity | exact I]|].
  destruct (0 <? _)%nat; cbn [flagSafe bind get log emit modify await].
  - intros s'. split; [reflexivity|]. apply flagSafe_syncAttempt.
  - apply flagSafe_syncAttempt.
Qed.

Lemma flagSafe_performSync (env : Env) (serverConfig : ServerConnectionConfig.t) (s : State) :
  flagSafe (performSync env serverConfig) s.
Proof.
  unfold performSync, getPendingProgressItems.
  apply flagSafe_catch; [|intros e s'; exact I].
  cbn [flagSafe bind get]. destruct (Realm_opens env);
    cbn [flagSafe bind await log emit]; intros s'; [|exact I].
  apply flagSafe_forEach. intros progress s''. apply flagSafe_syncProgressItem.
Qed.

Lemma flagSafe_manualSyncProgress (env : Env) (localLibraryItemId : string) (s : State) :
  flagSafe (manualSyncProgress env localLibraryItemId) s.
Proof.
  unfold manualSyncProgress.
  destruct (Store_serverConfig env); [|exact I].
  destruct (negb (isNetworkAvailable env)); [exact I|].
  destruct (negb (Realm_opens env)); [exact I|].
  cbn [flagSafe bind get]. destruct (firstFor localLibraryItemId s); [|exact I].
  apply flagSafe_bind; [apply flagSafe_syncProgressItem | intros _ s'; exact I].
Qed.

Lemma flagSafe_onProgressUpdated (env : Env) (localLibraryItemId : string) (s : State) :
  flagSafe (onProgressUpdated env localLibraryItemId) s.
Proof.
  unfold onProgressUpdated.
  destruct (negb (isNetworkAvailable env)); [exact I|].
  destruct (Store_serverConfig env); [|exact I].
  destruct (negb (Realm_opens env)); [exact I|].
  cbn [flagSafe bind get]. destruct (firstFor localLibraryItemId s); [|exact I].
  apply flagSafe_syncProgressItem.
Qed.

Lemma segment_flagSafe {A : Type} (p : Prog A) :
  forall s : State,
  flagSafe p s ->
  isCurrentlySyncing (segment p s).1.2 = isCurrentlySyncing s /\
  forall s', flagSafe (segment p s).1.1 s'.
Proof.
  induction p as [a|e|k IH|s0 k IH|e k IH|k IH]; intros s Hp; simpl in *.
  - split; [reflexivity | intros; exact I].
  - split; [reflexivity | intros; exact I].
  - apply IH. exact Hp.
  - destruct Hp as [Hflag Hp]. destruct (IH s0 Hp) as [IHflag IHk].
    split; [rewrite IHflag; exact Hflag | exact IHk].
  - destruct (IH s Hp) as [IHflag IHk].
    destruct (segment k s) as [[p' s'] t]. split; [exact IHflag | exact IHk].
  - split; [reflexivity | exact Hp].
Qed.

(** However two such tasks are interleaved, the flag stays as it was. *)
Lemma interleave_flagSafe {A B : Type} (schedule : list bool) :
  forall (p : Prog A) (q : Prog B) (s : State),
  (forall s', flagSafe p s') -> (forall s', flagSafe q s') ->
  isCurrentlySyncing (interleave schedule p q s).1.2 = isCurrentlySyncing s.
Proof.
  induction schedule as [|[|] schedule IH]; intros p q s Hp Hq; [reflexivity| |].
  - cbn [interleave]. destruct (segment_flagSafe p s (Hp s)) as [Hflag Hp'].
    destruct (segment p s) as [[p' s'] t]. cbn [fst snd] in Hflag, Hp'.
    specialize (IH p' q s' Hp' Hq).
    destruct (interleave schedule p' q s') as [[[p'' q''] s''] t'].
    cbn [fst snd] in IH |- *. rewrite IH. exact Hflag.
  - cbn [interleave]. destruct (segment_flagSafe q s (Hq s)) as [Hflag Hq'].
    destruct (segment q s) as [[q' s'] t]. cbn [fst snd] in Hflag, Hq'.
    specialize (IH p q' s' Hp Hq').
    destruct (interleave schedule p q' s') as [[[p'' q''] s''] t'].
    cbn [fst snd] in IH |- *. rewrite IH. exact Hflag.
Qed.

(** C4 (as the code has it).  The only guard against overlapping work is the
    manager-wide [isCurrentlySyncing] flag of [syncPendingProgress].  A
    trigger that passes the guards sets the flag and starts the pass; at
    every instant of that pass, whatever other flag-respecting task (a manual
    sync, [onProgressUpdated], ...) is interleaved with it and however, a
    further [syncPendingProgress] trigger is a skipped no-op: it starts no
    task, makes no transport call and leaves the state as it is. *)
Theorem pending_pass_excludes_second_pass
    {B : Type} (env env' : Env) (serverConfig : ServerConnectionConfig.t) (other : Prog B)
    (schedule : list bool) (s : State) :
  isCurrentlySyncing s = false ->
  isNetworkAvailable env = true ->
  Store_serverConfig env = Some serverConfig ->
  (forall s', flagSafe other s') ->
  run (syncPendingProgress env) s
  = (Returned (Some (performSync env serverConfig ;; modify (set_isCurrentlySyncing false))),
     set_isCurrentlySyncing true s, []) /\
  let s' := (interleave schedule (performSync env serverConfig) other
               (set_isCurrentlySyncing true s)).1.2 in
  run (syncPendingProgress env') s' = (Returned None, s', [Log LogAlreadySyncing]).
Proof.
  intros Hidle Hnet Hconfig Hother. split.
  - unfold syncPendingProgress. cbn [run bind get]. rewrite Hidle, Hnet, Hconfig.
    reflexivity.
  - cbv zeta.
    pose proof (interleave_flagSafe schedule (performSync env serverConfig) other
                  (set_isCurrentlySyncing true s)
                  (flagSafe_performSync env serverConfig) Hother) as Hflag.
    cbn [isCurrentlySyncing set_isCurrentlySyncing] in Hflag.
    unfold syncPendingProgress. cbn [run bind get]. rewrite Hflag. reflexivity.
Qed.

Lemma pending_pass_excludes_second_pass_witness :
  let s' := (interleave [true; false; true; false]
               (performSync healthy {| ServerConnectionConfig.id := "A" |})
               (manualSyncProgress healthy "local-item-1")
               (set_isCurrentlySyncing true twoPendingState)).1.2 in
  run (syncPendingProgress pushTimesOut) s' = (Returned None, s', [Log LogAlreadySyncing]).
Proof.
  exact (proj2 (pending_pass_excludes_second_pass healthy pushTimesOut
                  {| ServerConnectionConfig.id := "A" |}
                  (manualSyncProgress healthy "local-item-1")
                  [true; false; true; false] twoPendingState
                  eq_refl eq_refl eq_refl
                  (flagSafe_manualSyncProgress healthy "local-item-1"))).
Defined.

(** C4 (as stated) fails: two manual syncs of the same record that overlap
    are both in flight after their first step (each has logged its attempt
    and sent its fetch, neither has finished), and both go on to push. *)
Lemma overlapping_manual_syncs_both_push :
  let manual := manualSyncProgress healthy "local-item-1" in
  let early := interleave [true; false] manual manual pendingState in
  let late := interleave alternating manual manual pendingState in
  finished early.1.1.1 = false /\
  finished early.1.1.2 = false /\
  early.2 = [Log (LogSyncing "local-item-1" 1); GetResource "server-item-1";
             Log (LogSyncing "local-item-1" 1); GetResource "server-item-1"] /\
  late.1.1.1 = Ret true /\
  late.1.1.2 = Ret true /\
  pushes late.2 = 2%nat.
Proof. repeat split; reflexivity. Qed.

(** ** Records without a server connection *)

(** The Realm queries of the sync passes never select a record without a
    server connection, and [needsServerSync] answers [false] for it. *)
Lemma no_connection_not_eligible (env : Env) (p : LocalMediaProgress.t)
    (serverConfigId : string) (oneHourAgo : Q) :
  LocalMediaProgress.serverConnectionConfigId p = None ->
  isPendingFor serverConfigId p = false /\
  isRecentFor serverConfigId oneHourAgo p = false /\
  needsServerSync env p = false.
Proof.
  intros H. unfold isPendingFor, isRecentFor, needsServerSync. rewrite H.
  repeat split; reflexivity.
Qed.

Lemma no_connection_never_listed (s : State) (p : LocalMediaProgress.t)
    (serverConfigId : string) :
  LocalMediaProgress.serverConnectionConfigId p = None ->
  ~ In p (List.filter (isPendingFor serverConfigId) (localMediaProgress s)).
Proof.
  intros H Hin. apply List.filter_In in Hin as [_ Hin].
  unfold isPendingFor in Hin. rewrite H in Hin. discriminate Hin.
Qed.

(** C5 (evaluation at the failing input).  A record with no server
    connection that was never synced: it is not listed as pending and
    [needsServerSync] is [false], but the manager's [hasPendingSync], which
    does not look at [serverConnectionConfigId], reports it as pending. *)
Lemma local_only_record_reported_pending :
  LocalMediaProgress.serverConnectionConfigId localOnly = None /\
  List.filter (isPendingFor "A") (localMediaProgress localOnlyState) = [] /\
  needsServerSync healthy localOnly = false /\
  hasPendingSync healthy localOnlyState "local-item-1" = true.
Proof. repeat split; reflexivity. Qed.

(** ** Retry accounting *)

Lemma localLibraryItemId_deref_assign (s : State) (progress : LocalMediaProgress.t)
    (f : LocalMediaProgress.t -> LocalMediaProgress.t) :
  (forall p, LocalMediaProgress.id (f p) = LocalMediaProgress.id p) ->
  (forall p, LocalMediaProgress.localLibraryItemId (f p)
             = LocalMediaProgress.localLibraryItemId p) ->
  LocalMediaProgress.localLibraryItemId (deref (assign progress f s) progress)
  = LocalMediaProgress.localLibraryItemId (deref s progress).
Proof.
  intros Hid Hlid. unfold deref, assign. simpl. rewrite find_assign by exact Hid.
  destruct (List.find (sameObject progress) (localMediaProgress s)); simpl; [apply Hlid|].
  reflexivity.
Qed.

Lemma getServerLibraryItemId_assign (env : Env) (s : State) (progress : LocalMediaProgress.t)
    (f : LocalMediaProgress.t -> LocalMediaProgress.t) :
  (forall p, LocalMediaProgress.id (f p) = LocalMediaProgress.id p) ->
  (forall p, LocalMediaProgress.localLibraryItemId (f p)
             = LocalMediaProgress.localLibraryItemId p) ->
  getServerLibraryItemId env (assign progress f s) progress
  = getServerLibraryItemId env s progress.
Proof.
  intros Hid Hlid. unfold getServerLibraryItemId.
  rewrite localLibraryItemId_deref_assign by assumption. reflexivity.
Qed.

Lemma getServerLibraryItemId_set_retryAttempts env s progress f :
  getServerLibraryItemId env (set_retryAttempts f s) progress
  = getServerLibraryItemId env s progress.
Proof. reflexivity. Qed.

Lemma syncAttempt_mapping (env env' : Env) (progress : LocalMediaProgress.t) (n : nat)
    (s : State) :
  getServerLibraryItemId env' (stateAfter (syncAttempt env progress n) s) progress
  = getServerLibraryItemId env' s progress.
Proof.
  unfold stateAfter. unfold_attempt. exec.
  repeat (branch; exec);
    repeat first
      [ rewrite getServerLibraryItemId_set_retryAttempts
      | rewrite getServerLibraryItemId_assign by (intros; reflexivity) ];
    try reflexivity.
Qed.

Lemma syncProgressItem_mapping (env env' : Env) (progress : LocalMediaProgress.t) (s : State) :
  getServerLibraryItemId env' (stateAfter (syncProgressItem env progress) s) progress
  = getServerLibraryItemId env' s progress.
Proof.
  unfold stateAfter. rewrite run_syncProgressItem. cbv zeta.
  destruct (maxRetryAttempts <=? _)%nat; [reflexivity|].
  destruct (0 <? _)%nat;
    match goal with |- context [run (syncAttempt ?e ?p ?n) ?s1] =>
      pose proof (syncAttempt_mapping e env' p n s1) as H; unfold stateAfter in H;
      destruct (run (syncAttempt e p n) s1) as [[r s'] t] end;
    simpl in *; rewrite H; reflexivity.
Qed.

Lemma mappedTo_syncProgressItem (env : Env) (progress : LocalMediaProgress.t) (s : State)
    (sid : string) :
  mappedTo s progress sid ->
  mappedTo (stateAfter (syncProgressItem env progress) s) progress sid.
Proof.
  intros H env' Hopen. rewrite syncProgressItem_mapping. exact (H env' Hopen).
Qed.

(** A failed attempt puts the incremented count in the retry dictionary. *)
Lemma syncAttempt_failure (env : Env) (progress : LocalMediaProgress.t) (n : nat) (s : State)
    (sid : string) :
  getServerLibraryItemId env s progress = Some sid ->
  transportFails env sid ->
  retryAttempts (stateAfter (syncAttempt env progress n) s) !! LocalMediaProgress.id progress
  = Some (n + 1)%nat.
Proof.
  intros Hsid Hfail. unfold stateAfter. unfold_attempt. exec. rewrite Hsid. exec.
  destruct Hfail as [Hget | Hpatch].
  - rewrite Hget. exec. simpl. apply lookup_insert_eq.
  - repeat (branch; exec); simpl; try apply lookup_insert_eq;
      match goal with H : ApiClient_patchResource _ _ _ = PatchSuccess true |- _ =>
        destruct (Hpatch _ H) end.
Qed.

Lemma syncProgressItem_failure (env : Env) (progress : LocalMediaProgress.t) (s : State)
    (sid : string) :
  getServerLibraryItemId env s progress = Some sid ->
  transportFails env sid ->
  (currentRetriesOf s progress < maxRetryAttempts)%nat ->
  retryAttempts (stateAfter (syncProgressItem env progress) s) !! LocalMediaProgress.id progress
  = Some (currentRetriesOf s progress + 1)%nat.
Proof.
  intros Hsid Hfail Hlt. unfold stateAfter. rewrite run_syncProgressItem. cbv zeta.
  replace (maxRetryAttempts <=? currentRetriesOf s progress)%nat with false
    by (symmetry; apply Nat.leb_gt; exact Hlt).
  destruct (0 <? _)%nat;
    match goal with |- context [run (syncAttempt ?e ?p ?n) ?s1] =>
      pose proof (syncAttempt_failure e p n s1 sid Hsid Hfail) as H; unfold stateAfter in H;
      destruct (run (syncAttempt e p n) s1) as [[r s'] t] end;
    exact H.
Qed.

(** Successive triggers for one record, each under its own conditions. *)
Lemma failures_accumulate (envs : list Env) (progress : LocalMediaProgress.t) (sid : string) :
  forall s : State,
  Forall (fun env => Realm_opens env = true /\ transportFails env sid) envs ->
  mappedTo s progress sid ->
  (currentRetriesOf s progress + length envs <= maxRetryAttempts)%nat ->
  let s' := stateAfter (forEach envs (fun env => syncProgressItem env progress)) s in
  mappedTo s' progress sid /\
  (envs <> [] ->
   retryAttempts s' !! LocalMediaProgress.id progress
   = Some (currentRetriesOf s progress + length envs)%nat).
Proof.
  induction envs as [|env envs IH]; intros s Hall Hmap Hlen; cbv zeta.
  - split; [exact Hmap | congruence].
  - inversion Hall as [|? ? [Hopen Hfail] Hall']; subst. simpl in Hlen.
    unfold stateAfter at 1 2.
    rewrite run_forEach_cons by apply syncProgressItem_returns.
    set (s1 := stateAfter (syncProgressItem env progress) s).
    assert (retryAttempts s1 !! LocalMediaProgress.id progress
            = Some (currentRetriesOf s progress + 1)%nat) as H1.
    { apply (syncProgressItem_failure env progress s sid (Hmap env Hopen) Hfail). lia. }
    assert (currentRetriesOf s1 progress = (currentRetriesOf s progress + 1)%nat) as H1'.
    { unfold currentRetriesOf at 1. rewrite H1. reflexivity. }
    destruct (IH s1 Hall' (mappedTo_syncProgressItem env progress s sid Hmap)) as [IHmap IHn];
      [lia|].
    unfold stateAfter in IHmap, IHn.
    destruct envs as [|env' envs'].
    + simpl in *. split; [exact IHmap|]. intros _. rewrite H1. f_equal.
    + destruct (run (forEach (env' :: envs') (fun env0 => syncProgressItem env0 progress)) s1)
        as [[r s'] t].
      simpl in *. split; [exact IHmap|]. intros _.
      rewrite IHn by discriminate. f_equal. lia.
Qed.

Lemma syncAttempt_starts_with_fetch (env : Env) (progress : LocalMediaProgress.t) (n : nat)
    (s : State) (sid : string) :
  getServerLibraryItemId env s progress = Some sid ->
  exists rest, traceOf (syncAttempt env progress n) s = GetResource sid :: rest.
Proof.
  intros Hsid. unfold traceOf. unfold_attempt. exec. rewrite Hsid. exec.
  repeat (branch; exec); eexists; reflexivity.
Qed.

(** C6.  Five consecutive triggers for a record, each ending in a transport
    failure, bring its retry count to [maxRetryAttempts]; the sixth trigger
    makes no transport call and removes the retry state; the seventh is a
    fresh first attempt: no backoff sleep, logged as attempt 1, the server is
    contacted again, and if that attempt fails too the count restarts at 1. *)
Theorem retry_state_dropped_after_max_failures
    (envs : list Env) (env6 env7 : Env) (s : State) (progress : LocalMediaProgress.t)
    (sid : string) :
  length envs = maxRetryAttempts ->
  Forall (fun env => Realm_opens env = true /\ transportFails env sid) envs ->
  Realm_opens env7 = true ->
  mappedTo s progress sid ->
  retryAttempts s !! LocalMediaProgress.id progress = None ->
  let s5 := stateAfter (forEach envs (fun env => syncProgressItem env progress)) s in
  let s6 := stateAfter (syncProgressItem env6 progress) s5 in
  let s7 := stateAfter (syncProgressItem env7 progress) s6 in
  retryAttempts s5 !! LocalMediaProgress.id progress = Some 5%nat /\
  traceOf (syncProgressItem env6 progress) s5
  = [Log (LogMaxRetry (LocalMediaProgress.id progress))] /\
  transportCalls (traceOf (syncProgressItem env6 progress) s5) = [] /\
  retryAttempts s6 !! LocalMediaProgress.id progress = None /\
  (exists rest,
     traceOf (syncProgressItem env7 progress) s6
     = Log (LogSyncing (LocalMediaProgress.localLibraryItemId (deref s6 progress)) 1)
         :: GetResource sid :: rest) /\
  (transportFails env7 sid ->
   retryAttempts s7 !! LocalMediaProgress.id progress = Some 1%nat).
Proof.
  intros Hlen Hall Hopen7 Hmap Hnone. cbv zeta.
  assert (currentRetriesOf s progress = 0%nat) as H0.
  { unfold currentRetriesOf. rewrite Hnone. reflexivity. }
  destruct (failures_accumulate envs progress sid s Hall Hmap) as [Hmap5 H5].
  { rewrite H0, Hlen. reflexivity. }
  cbv zeta in Hmap5, H5.
  set (s5 := stateAfter (forEach envs (fun env => syncProgressItem env progress)) s) in *.
  assert (retryAttempts s5 !! LocalMediaProgress.id progress = Some 5%nat) as H5'.
  { rewrite H5; [rewrite H0, Hlen; reflexivity|].
    intros ->. discriminate Hlen. }
  assert (run (syncProgressItem env6 progress) s5
          = (Returned tt, set_retryAttempts (delete (LocalMediaProgress.id progress)) s5,
             [Log (LogMaxRetry (LocalMediaProgress.id progress))])) as H6.
  { rewrite run_syncProgressItem. unfold currentRetriesOf. rewrite H5'. reflexivity. }
  assert (mappedTo (stateAfter (syncProgressItem env6 progress) s5) progress sid) as Hmap6.
  { apply mappedTo_syncProgressItem. exact Hmap5. }
  assert (stateAfter (syncProgressItem env6 progress) s5
          = set_retryAttempts (delete (LocalMediaProgress.id progress)) s5) as Hs6.
  { unfold stateAfter. rewrite H6. reflexivity. }
  assert (traceOf (syncProgressItem env6 progress) s5
          = [Log (LogMaxRetry (LocalMediaProgress.id progress))]) as Ht6.
  { unfold traceOf. rewrite H6. reflexivity. }
  rewrite Hs6 in Hmap6 |- *. rewrite Ht6.
  set (s6 := set_retryAttempts (delete (LocalMediaProgress.id progress)) s5) in *.
  assert (retryAttempts s6 !! LocalMediaProgress.id progress = None) as H6'.
  { apply lookup_delete_eq. }
  assert (currentRetriesOf s6 progress = 0%nat) as H60.
  { unfold currentRetriesOf. rewrite H6'. reflexivity. }
  split; [exact H5'|]. split; [reflexivity|]. split; [reflexivity|].
  split; [exact H6'|]. split.
  - unfold traceOf. rewrite run_syncProgressItem, H60. cbv zeta.
    change (maxRetryAttempts <=? 0)%nat with false. change (0 <? 0)%nat with false.
    cbv iota.
    destruct (syncAttempt_starts_with_fetch env7 progress 0 s6 sid (Hmap6 env7 Hopen7))
      as [rest Hrest].
    unfold traceOf in Hrest.
    destruct (run (syncAttempt env7 progress 0) s6) as [[r s'] t].
    cbn [fst snd] in Hrest |- *. subst t.
    exists rest. reflexivity.
  - intros Hfail7.
    rewrite (syncProgressItem_failure env7 progress s6 sid (Hmap6 env7 Hopen7) Hfail7)
      by (rewrite H60; unfold maxRetryAttempts; lia).
    rewrite H60. reflexivity.
Qed.

Lemma retry_state_dropped_after_max_failures_witness :
  let s5 := stateAfter (forEach fiveFailures (fun env => syncProgressItem env pendingLocal))
              pendingState in
  let s6 := stateAfter (syncProgressItem healthy pendingLocal) s5 in
  retryAttempts s5 !! "progress-1" = Some 5%nat /\
  transportCalls (traceOf (syncProgressItem healthy pendingLocal) s5) = [] /\
  retryAttempts s6 !! "progress-1" = None /\
  exists rest,
    traceOf (syncProgressItem healthy pendingLocal) s6
    = Log (LogSyncing "local-item-1" 1) :: GetResource "server-item-1" :: rest.
Proof.
  assert (Forall (fun env => Realm_opens env = true /\ transportFails env "server-item-1")
            fiveFailures) as Hall.
  { assert (Realm_opens pushTimesOut = true /\ transportFails pushTimesOut "server-item-1")
      as Hpush by (split; [reflexivity | right; intros data; discriminate]).
    assert (Realm_opens fetchErrors = true /\ transportFails fetchErrors "server-item-1")
      as Hfetch by (split; [reflexivity | left; reflexivity]).
    unfold fiveFailures.
    repeat first [ apply List.Forall_nil
                 | apply List.Forall_cons; [first [exact Hpush | exact Hfetch]|] ]. }
  assert (mappedTo pendingState pendingLocal "server-item-1") as Hmap.
  { intros env Hopen. unfold getServerLibraryItemId. rewrite Hopen. reflexivity. }
  destruct (retry_state_dropped_after_max_failures fiveFailures healthy healthy pendingState
              pendingLocal "server-item-1" eq_refl Hall eq_refl Hmap eq_refl)
    as (H5 & _ & H6 & H6' & H7 & _).
  cbv zeta. split; [exact H5|]. split; [exact H6|]. split; [exact H6'|]. exact H7.
Defined.

(** ** Backoff before a retry *)

(** C7.  With [maxRetryAttempts = 5] and [baseRetryDelay = 2] seconds, a call
    that finds the retry count [n] of its record with [1 <= n < 5] first
    sleeps [baseRetryDelay * 2^n] seconds, and only then logs and makes
    attempt [n + 1]. *)
Theorem retry_waits_exponential_backoff
    (env : Env) (s : State) (progress : LocalMediaProgress.t) (n : nat) :
  retryAttempts s !! LocalMediaProgress.id progress = Some n ->
  (1 <= n < maxRetryAttempts)%nat ->
  maxRetryAttempts = 5%nat /\
  baseRetryDelay = 2%Q /\
  (calculateRetryDelay n == baseRetryDelay * 2 ^ Z.of_nat n)%Q /\
  exists rest,
    traceOf (syncProgressItem env progress) s
    = Sleep (calculateRetryDelay n)
        :: Log (LogSyncing (LocalMediaProgress.localLibraryItemId (deref s progress)) (n + 1))
        :: rest.
Proof.
  intros Hn [Hlo Hhi].
  split; [reflexivity|]. split; [reflexivity|].
  split; [unfold calculateRetryDelay; apply Qmult_comm|].
  unfold traceOf. rewrite run_syncProgressItem. unfold currentRetriesOf. rewrite Hn.
  cbv zeta. change (default 0%nat (Some n)) with n.
  replace (maxRetryAttempts <=? n)%nat with false by (symmetry; apply Nat.leb_gt; lia).
  replace (0 <? n)%nat with true by (symmetry; apply Nat.ltb_lt; lia).
  match goal with |- context [run (syncAttempt ?e ?p ?k) ?s1] =>
    destruct (run (syncAttempt e p k) s1) as [[r s'] t] end.
  exists t. reflexivity.
Qed.

Lemma retry_waits_exponential_backoff_witness :
  retryAttempts unmappedState !! LocalMediaProgress.id unmappedLocal = Some 2%nat /\
  (calculateRetryDelay 2 == 8)%Q /\
  exists rest,
    traceOf (syncProgressItem unmappedEnv unmappedLocal) unmappedState
    = Sleep (calculateRetryDelay 2) :: Log (LogSyncing "local-item-2" 3) :: rest.
Proof.
  assert (retryAttempts unmappedState !! LocalMediaProgress.id unmappedLocal = Some 2%nat)
    as H by reflexivity.
  assert (1 <= 2 < maxRetryAttempts)%nat as Hn by (unfold maxRetryAttempts; lia).
  split; [exact H|]. split; [reflexivity|].
  exact (proj2 (proj2 (proj2
    (retry_waits_exponential_backoff unmappedEnv unmappedState unmappedLocal 2 H Hn)))).
Defined.

(** ** Items without a remote mapping *)

(** C8.  When the local item of a record has no server library item id (the
    item is absent, has no [libraryItemId], or Realm cannot be opened), the
    call returns without any transport call, hence without a push, and the
    retry count of the record is not incremented: below the maximum the
    retry dictionary is left as it is. *)
Theorem no_remote_mapping_is_not_retried
    (env : Env) (s : State) (progress : LocalMediaProgress.t) :
  getServerLibraryItemId env s progress = None ->
  outcomeOf (syncProgressItem env progress) s = Returned tt /\
  transportCalls (traceOf (syncProgressItem env progress) s) = [] /\
  (currentRetriesOf (stateAfter (syncProgressItem env progress) s) progress
   <= currentRetriesOf s progress)%nat /\
  ((currentRetriesOf s progress < maxRetryAttempts)%nat ->
   retryAttempts (stateAfter (syncProgressItem env progress) s) = retryAttempts s).
Proof.
  intros Hnone.
  unfold outcomeOf, traceOf, stateAfter. rewrite run_syncProgressItem. cbv zeta.
  destruct (maxRetryAttempts <=? currentRetriesOf s progress)%nat eqn:Hmax.
  - simpl. repeat split.
    + unfold currentRetriesOf at 1. simpl. rewrite lookup_delete_eq. simpl. lia.
    + apply Nat.leb_le in Hmax. lia.
  - destruct (0 <? currentRetriesOf s progress)%nat.
    + rewrite syncAttempt_no_mapping by exact Hnone. simpl. repeat split. reflexivity.
    + rewrite syncAttempt_no_mapping by exact Hnone. simpl. repeat split. reflexivity.
Qed.

Lemma no_remote_mapping_is_not_retried_witness :
  getServerLibraryItemId unmappedEnv unmappedState unmappedLocal = None /\
  transportCalls (traceOf (syncProgressItem unmappedEnv unmappedLocal) unmappedState) = [] /\
  (currentRetriesOf (stateAfter (syncProgressItem unmappedEnv unmappedLocal) unmappedState)
     unmappedLocal
   <= currentRetriesOf unmappedState unmappedLocal)%nat.
Proof.
  assert (getServerLibraryItemId unmappedEnv unmappedState unmappedLocal = None) as H
    by reflexivity.
  split; [exact H|].
  destruct (no_remote_mapping_is_not_retried unmappedEnv unmappedState unmappedLocal H)
    as (_ & Ht & Hle & _).
  split; [exact Ht | exact Hle].
Defined.

(** ** The pending-progress pass *)

Arguments forEach : simpl never.

Lemma run_performSync (env : Env) (serverConfig : ServerConnectionConfig.t) (s : State) :
  run (performSync env serverConfig) s =
  if Realm_opens env then
    let pendingItems :=
      List.filter (isPendingFor (ServerConnectionConfig.id serverConfig))
        (localMediaProgress s) in
    match run (forEach pendingItems (fun progress => syncProgressItem env progress)) s with
    | (_, s', t) => (Returned tt, s', Log (LogFound (length pendingItems)) :: t)
    end
  else (Returned tt, s, [Log LogPendingFailed]).
Proof.
  unfold performSync, getPendingProgressItems. rewrite run_catch.
  cbn [run bind get]. destruct (Realm_opens env); cbn [run bind await log emit];
    [|reflexivity].
  cbv zeta.
  match goal with |- context [run (forEach ?l ?f) s] =>
    destruct (forEach_syncProgressItem env l s) as [Hr _]; unfold outcomeOf in Hr;
    destruct (run (forEach l f) s) as [[r s'] t] end.
  cbn [fst snd] in Hr. subst r. reflexivity.
Qed.

(** C9 (as the code has it).  [syncPendingProgress] returns nothing (it is a
    [Void] function, there are no counts) and never raises: the trigger and
    the task it starts always return normally.  When the pass runs (no pass
    in progress, network, a server configuration, Realm readable) it makes one
    [syncProgressItem] call for every pending record of the server: a failing
    item does not keep the remaining items from being processed. *)
Theorem syncPendingProgress_absorbs_item_failures (env : Env) (s : State) :
  outcomeOf (syncPendingProgressTask env) s = Returned tt /\
  forall serverConfig : ServerConnectionConfig.t,
    isCurrentlySyncing s = false ->
    isNetworkAvailable env = true ->
    Store_serverConfig env = Some serverConfig ->
    Realm_opens env = true ->
    attempts (traceOf (syncPendingProgressTask env) s)
    = length (List.filter (isPendingFor (ServerConnectionConfig.id serverConfig))
                (localMediaProgress s)).
Proof.
  unfold outcomeOf, traceOf, syncPendingProgressTask, syncPendingProgress.
  cbn [run bind get].
  destruct (isCurrentlySyncing s) eqn:Hsyncing;
    [split; [reflexivity | intros ? H; discriminate H]|].
  destruct (isNetworkAvailable env) eqn:Hnet;
    [|split; [reflexivity | intros ? _ H; discriminate H]].
  destruct (Store_serverConfig env) as [serverConfig|] eqn:Hconfig;
    [|split; [reflexivity | intros ? _ _ H; discriminate H]].
  cbn [negb run bind get log emit modify await].
  rewrite run_bind, run_performSync.
  destruct (Realm_opens env) eqn:Hopen.
  - cbv zeta.
    match goal with |- context [run (forEach ?l ?f) ?s1] =>
      destruct (forEach_syncProgressItem env l s1) as [_ Ha]; unfold traceOf in Ha;
      destruct (run (forEach l f) s1) as [[r s'] t] end.
    cbn [fst snd run modify] in Ha |- *.
    split; [reflexivity|]. intros c _ _ Hc _. injection Hc as <-.
    rewrite List.app_nil_r. exact Ha.
  - split; [reflexivity|]. intros ? _ _ _ H. discriminate H.
Qed.

Lemma syncPendingProgress_absorbs_item_failures_witness :
  outcomeOf (syncPendingProgressTask pushTimesOut) twoPendingState = Returned tt /\
  attempts (traceOf (syncPendingProgressTask pushTimesOut) twoPendingState) = 2%nat.
Proof.
  destruct (syncPendingProgress_absorbs_item_failures pushTimesOut twoPendingState)
    as [Hr Ha].
  split; [exact Hr|].
  exact (Ha {| ServerConnectionConfig.id := "A" |} eq_refl eq_refl eq_refl eq_refl).
Defined.

(** C9 (as stated) fails on the counts: what the caller gets back is the same
    for a pass that attempted nothing and for a pass that attempted two
    items, so no count can be read from it. *)
Lemma syncPendingProgress_returns_no_counts :
  ~ exists attempted : Outcome unit -> nat,
      forall s : State,
        attempted (outcomeOf (syncPendingProgressTask pushTimesOut) s)
        = attempts (traceOf (syncPendingProgressTask pushTimesOut) s).
Proof.
  intros [attempted H].
  pose proof (H idleState) as H0. pose proof (H twoPendingState) as H2.
  vm_compute in H0, H2. congruence.
Qed.

(** ** Background passes *)

(** Objects other than the one a call is given are left as they are. *)
Lemma In_assign (progress q : LocalMediaProgress.t)
    (f : LocalMediaProgress.t -> LocalMediaProgress.t) (s : State) :
  sameObject progress q = false ->
  In q (localMediaProgress s) ->
  In q (localMediaProgress (assign progress f s)).
Proof.
  intros Hq Hin. unfold assign. simpl. apply List.in_map_iff.
  exists q. rewrite Hq. split; [reflexivity | exact Hin].
Qed.

Lemma syncAttempt_frame (env : Env) (progress q : LocalMediaProgress.t) (n : nat) (s : State) :
  sameObject progress q = false ->
  In q (localMediaProgress s) ->
  In q (localMediaProgress (stateAfter (syncAttempt env progress n) s)).
Proof.
  intros Hq Hin. unfold stateAfter. unfold_attempt. exec.
  repeat (branch; exec); cbn [localMediaProgress set_retryAttempts];
    repeat (apply In_assign; [exact Hq|]); exact Hin.
Qed.

Lemma syncProgressItem_frame (env : Env) (progress q : LocalMediaProgress.t) (s : State) :
  sameObject progress q = false ->
  In q (localMediaProgress s) ->
  In q (localMediaProgress (stateAfter (syncProgressItem env progress) s)).
Proof.
  intros Hq Hin. unfold stateAfter. rewrite run_syncProgressItem. cbv zeta.
  destruct (maxRetryAttempts <=? _)%nat; [exact Hin|].
  destruct (0 <? _)%nat;
    match goal with |- context [run (syncAttempt ?e ?p ?n) ?s1] =>
      pose proof (syncAttempt_frame e p q n s1 Hq Hin) as H; unfold stateAfter in H;
      destruct (run (syncAttempt e p n) s1) as [[r s'] t] end;
    exact H.
Qed.

Lemma forEach_frame (env : Env) (items : list LocalMediaProgress.t)
    (q : LocalMediaProgress.t) :
  forall s : State,
  (forall p, In p items -> sameObject p q = false) ->
  In q (localMediaProgress s) ->
  In q (localMediaProgress
          (stateAfter (forEach items (fun progress => syncProgressItem env progress)) s)).
Proof.
  induction items as [|progress items IH]; intros s Hitems Hin; [exact Hin|].
  unfold stateAfter.
  rewrite run_forEach_cons by apply syncProgressItem_returns.
  assert (In q (localMediaProgress (stateAfter (syncProgressItem env progress) s))) as H1.
  { apply syncProgressItem_frame; [apply Hitems; left; reflexivity | exact Hin]. }
  specialize (IH (stateAfter (syncProgressItem env progress) s)
                (fun p Hp => Hitems p (or_intror Hp)) H1).
  unfold stateAfter in IH at 1.
  destruct (run (forEach items _) _) as [[r s'] t]. exact IH.
Qed.

(** The quiet wrapper adds nothing to a call but its [true]. *)
Lemma run_syncProgressItemQuietly (env : Env) (progress : LocalMediaProgress.t) (s : State) :
  run (syncProgressItemQuietly env progress) s
  = (Returned true, stateAfter (syncProgressItem env progress) s,
     traceOf (syncProgressItem env progress) s).
Proof.
  unfold syncProgressItemQuietly. rewrite run_catch, run_bind.
  destruct (syncProgressItem_returns env progress s) as [Hr _].
  unfold outcomeOf, stateAfter, traceOf in *.
  destruct (run (syncProgressItem env progress) s) as [[r s'] t]. cbn [fst snd] in *.
  subst r. cbn [run]. rewrite List.app_nil_r. reflexivity.
Qed.

Lemma run_forEachCounting (env : Env) (items : list LocalMediaProgress.t) :
  forall (successCount : nat) (s : State),
  run (forEachCounting items (fun progress => syncProgressItemQuietly env progress)
         successCount) s
  = (Returned (successCount + length items)%nat,
     stateAfter (forEach items (fun progress => syncProgressItem env progress)) s,
     traceOf (forEach items (fun progress => syncProgressItem env progress)) s).
Proof.
  induction items as [|progress items IH]; intros successCount s.
  - cbn [forEachCounting run length]. rewrite Nat.add_0_r. reflexivity.
  - cbn [forEachCounting]. rewrite run_bind, run_syncProgressItemQuietly, IH.
    unfold stateAfter, traceOf.
    rewrite (run_forEach_cons progress items (fun progress => syncProgressItem env progress))
      by apply syncProgressItem_returns.
    unfold stateAfter, traceOf.
    destruct (run (forEach items _) _) as [[r s'] t]. cbn [fst snd length].
    replace (S successCount + length items)%nat with (successCount + S (length items))%nat
      by lia.
    reflexivity.
Qed.

Lemma run_forEach_quietly (env : Env) (items : list LocalMediaProgress.t) :
  forall s : State,
  run (forEach items
         (fun progress => _ <- syncProgressItemQuietly env progress ;; Ret tt)) s
  = (Returned tt,
     stateAfter (forEach items (fun progress => syncProgressItem env progress)) s,
     traceOf (forEach items (fun progress => syncProgressItem env progress)) s).
Proof.
  induction items as [|progress items IH]; intros s; [reflexivity|].
  unfold stateAfter, traceOf.
  rewrite (run_forEach_cons progress items (fun progress => syncProgressItem env progress))
    by apply syncProgressItem_returns.
  unfold forEach at 1; fold (@forEach LocalMediaProgress.t).
  rewrite run_bind, run_bind, run_syncProgressItemQuietly. cbn [run].
  rewrite IH. unfold stateAfter, traceOf.
  destruct (run (forEach items _) _) as [[r s'] t]. cbn [fst snd].
  rewrite List.app_nil_r. reflexivity.
Qed.

Lemma run_performBackgroundSync (env : Env) (s : State) :
  run (performBackgroundSync env) s =
  match Store_serverConfig env with
  | None => (Returned false, s, [Log (LogBackground "No server config for background sync")])
  | Some serverConfig =>
      if negb (isNetworkAvailable env)
      then (Returned false, s, [Log (LogBackground "No network for background sync")])
      else if Realm_opens env then
        let pendingItems :=
          List.filter (isPendingFor (ServerConnectionConfig.id serverConfig))
            (localMediaProgress s) in
        let loop := forEach (take 10 pendingItems)
                      (fun progress => syncProgressItem env progress) in
        (Returned (0 <? 0 + length (take 10 pendingItems))%nat,
         stateAfter loop s,
         Log (LogFound (length pendingItems))
           :: traceOf loop s ++ [Log (LogBackground "Background sync completed")])
      else (Returned false, s, [Log (LogBackground "Background sync error")])
  end.
Proof.
  unfold performBackgroundSync, getPendingProgressItems.
  destruct (Store_serverConfig env) as [serverConfig|]; [|reflexivity].
  destruct (negb (isNetworkAvailable env)); [reflexivity|].
  rewrite run_catch. cbn [run bind get].
  destruct (Realm_opens env); cbn [run bind await log emit]; [|reflexivity].
  rewrite run_bind, run_forEachCounting. reflexivity.
Qed.

Lemma run_performQuickSync (env : Env) (s : State) :
  run (performQuickSync env) s =
  match Store_serverConfig env with
  | None => (Returned false, s, [])
  | Some serverConfig =>
      if negb (isNetworkAvailable env) then (Returned false, s, [])
      else if Realm_opens env then
        let recentItems :=
          List.filter (isRecentFor (ServerConnectionConfig.id serverConfig)
                         (clock s - 60 * 60 * 1000)%Q)
            (localMediaProgress s) in
        let loop := forEach (take 3 recentItems)
                      (fun progress => syncProgressItem env progress) in
        match recentItems with
        | [] => (Returned true, s, [])
        | _ => (Returned true, stateAfter loop s,
                Log (LogFound (length recentItems)) :: traceOf loop s)
        end
      else (Returned false, s, [Log (LogBackground "Quick sync error")])
  end.
Proof.
  unfold performQuickSync, getRecentlyUpdatedItems.
  destruct (Store_serverConfig env) as [serverConfig|]; [|reflexivity].
  destruct (negb (isNetworkAvailable env)); [reflexivity|].
  rewrite run_catch. cbn [run bind get].
  destruct (Realm_opens env); cbn [run bind await log emit]; [|reflexivity].
  cbv zeta.
  destruct (List.filter _ (localMediaProgress s)) as [|p recentItems]; [reflexivity|].
  cbn [run bind await log emit]. rewrite run_bind, run_forEach_quietly.
  cbn [run]. rewrite List.app_nil_r. reflexivity.
Qed.

(** Primary keys tell the records beyond a cap from those within it. *)
Lemma NoDup_map_filter {X Y : Type} (f : X -> Y) (g : X -> bool) (l : list X) :
  NoDup (List.map f l) -> NoDup (List.map f (List.filter g l)).
Proof.
  induction l as [|x l IH]; intros H; [exact H|].
  simpl in H. apply NoDup_cons in H as [Hx Hl].
  simpl. destruct (g x); [|exact (IH Hl)].
  simpl. apply NoDup_cons. split; [|exact (IH Hl)].
  intros Hin. apply Hx. apply list_elem_of_In in Hin.
  apply List.in_map_iff in Hin as (y & Hy & Hin).
  apply list_elem_of_In, List.in_map_iff. exists y. split; [exact Hy|].
  apply List.filter_In in Hin. tauto.
Qed.

Lemma beyond_cap_distinct (l : list LocalMediaProgress.t) (n : nat)
    (p p' : LocalMediaProgress.t) :
  NoDup (List.map LocalMediaProgress.id l) ->
  In p' (take n l) -> In p (drop n l) -> sameObject p' p = false.
Proof.
  intros Hnodup Hp' Hp. unfold sameObject. apply String.eqb_neq. intros Heq.
  rewrite <- (take_drop n l), List.map_app in Hnodup.
  apply NoDup_app in Hnodup as (_ & Hdisjoint & _).
  apply (Hdisjoint (LocalMediaProgress.id p')).
  - apply list_elem_of_In, List.in_map. exact Hp'.
  - rewrite <- Heq. apply list_elem_of_In, List.in_map. exact Hp.
Qed.

Lemma In_drop {X : Type} (n : nat) (l : list X) (x : X) : In x (drop n l) -> In x l.
Proof.
  intros H. rewrite <- (take_drop n l). apply List.in_or_app. right. exact H.
Qed.

(** C10.  A background-processing pass calls [syncProgressItem] for at most
    10 pending records and a background-refresh pass for at most 3 recently
    updated ones, however many there are; with unique primary keys, the
    records beyond the cap are left exactly as they were, so they are still
    pending (and still listed as pending) after the pass. *)
Theorem background_passes_are_capped (env : Env) (s : State) :
  NoDup (List.map LocalMediaProgress.id (localMediaProgress s)) ->
  (attempts (traceOf (performBackgroundSync env) s) <= 10)%nat /\
  (attempts (traceOf (performQuickSync env) s) <= 3)%nat /\
  (forall (serverConfig : ServerConnectionConfig.t) (p : LocalMediaProgress.t),
     Store_serverConfig env = Some serverConfig ->
     In p (drop 10 (List.filter (isPendingFor (ServerConnectionConfig.id serverConfig))
                      (localMediaProgress s))) ->
     In p (List.filter (isPendingFor (ServerConnectionConfig.id serverConfig))
             (localMediaProgress (stateAfter (performBackgroundSync env) s)))) /\
  (forall (serverConfig : ServerConnectionConfig.t) (p : LocalMediaProgress.t),
     Store_serverConfig env = Some serverConfig ->
     In p (drop 3 (List.filter (isRecentFor (ServerConnectionConfig.id serverConfig)
                                  (clock s - 60 * 60 * 1000)%Q)
                     (localMediaProgress s))) ->
     In p (localMediaProgress (stateAfter (performQuickSync env) s)) /\
     updatedSinceSync p = true).
Proof.
  intros Hnodup. split; [|split; [|split]].
  - unfold traceOf. rewrite run_performBackgroundSync.
    destruct (Store_serverConfig env) as [c|]; [|cbn; lia].
    destruct (negb (isNetworkAvailable env)); [cbn; lia|].
    destruct (Realm_opens env); [|cbn; lia].
    cbv zeta. cbn [fst snd]. change (Log ?m :: ?t) with ([Log m] ++ t).
    rewrite !attempts_app.
    rewrite (proj2 (forEach_syncProgressItem env _ s)).
    cbn [attempts List.filter isItemStart length].
    rewrite length_take. lia.
  - unfold traceOf. rewrite run_performQuickSync.
    destruct (Store_serverConfig env) as [c|]; [|cbn; lia].
    destruct (negb (isNetworkAvailable env)); [cbn; lia|].
    destruct (Realm_opens env); [|cbn; lia].
    cbv zeta.
    destruct (List.filter _ (localMediaProgress s)) as [|p0 recentItems]; [cbn; lia|].
    cbn [fst snd]. change (Log ?m :: ?t) with ([Log m] ++ t).
    rewrite !attempts_app.
    rewrite (proj2 (forEach_syncProgressItem env _ s)).
    cbn [attempts List.filter isItemStart length].
    rewrite length_take. lia.
  - intros c p Hc Hp.
    pose proof (In_drop _ _ _ Hp) as Hin. apply List.filter_In in Hin as [Hin Hpending].
    apply List.filter_In. split; [|exact Hpending].
    unfold stateAfter. rewrite run_performBackgroundSync, Hc.
    destruct (negb (isNetworkAvailable env)); [exact Hin|].
    destruct (Realm_opens env); [|exact Hin].
    cbv zeta. cbn [fst snd].
    apply forEach_frame; [|exact Hin].
    intros p' Hp'.
    exact (beyond_cap_distinct _ 10 p p' (NoDup_map_filter _ _ _ Hnodup) Hp' Hp).
  - intros c p Hc Hp.
    pose proof (In_drop _ _ _ Hp) as Hin. apply List.filter_In in Hin as [Hin Hrecent].
    split; [|unfold isRecentFor in Hrecent; apply andb_true_iff in Hrecent; tauto].
    unfold stateAfter. rewrite run_performQuickSync, Hc.
    destruct (negb (isNetworkAvailable env)); [exact Hin|].
    destruct (Realm_opens env); [|exact Hin].
    cbv zeta.
    destruct (List.filter _ (localMediaProgress s)) as [|p0 recentItems] eqn:Hitems;
      [exact Hin|].
    cbn [fst snd]. rewrite <- Hitems in Hp |- *.
    apply forEach_frame; [|exact Hin].
    intros p' Hp'.
    exact (beyond_cap_distinct _ 3 p p' (NoDup_map_filter _ _ _ Hnodup) Hp' Hp).
Qed.

Lemma background_passes_are_capped_witness :
  length (List.filter (isPendingFor "A") (localMediaProgress crowdedState)) = 12%nat /\
  (attempts (traceOf (performBackgroundSync healthy) crowdedState) <= 10)%nat /\
  (attempts (traceOf (performQuickSync healthy) crowdedState) <= 3)%nat /\
  In (numbered "11")
    (List.filter (isPendingFor "A")
       (localMediaProgress (stateAfter (performBackgroundSync healthy) crowdedState))).
Proof.
  assert (NoDup (List.map LocalMediaProgress.id (localMediaProgress crowdedState))) as Hnodup.
  { apply (bool_decide_unpack _). vm_compute. reflexivity. }
  destruct (background_passes_are_capped healthy crowdedState Hnodup) as (Hb & Hq & Hrest & _).
  split; [reflexivity|]. split; [exact Hb|]. split; [exact Hq|].
  apply (Hrest {| ServerConnectionConfig.id := "A" |} (numbered "11") eq_refl).
  vm_compute. left. reflexivity.
Defined.

(** * Further properties of the sync code *)

(** ** Furthest read wins *)

(** X1.  When the fetched server progress is strictly behind the local
    record, [resolveProgressConflicts] keeps the local record as it is,
    whatever the two timestamps are and whether or not Realm can be written:
    nothing is stored, and the only effects are the fetch and the log. *)
Theorem local_further_keeps_local
    (env : Env) (s : State) (local : LocalMediaProgress.t) (server : MediaProgress.t)
    (sid : string) :
  ApiClient_getResource env sid = GetSuccess server ->
  (MediaProgress.ebookProgress server < LocalMediaProgress.ebookProgress (deref s local))%Q ->
  run (resolveProgressConflicts env local sid) s
  = (Returned local, s, [GetResource sid; Log LogLocalFurther]).
Proof.
  intros Hget Hlt. apply gt_true in Hlt.
  unfold resolveProgressConflicts, fetchServerProgress. exec.
  rewrite Hget. exec. rewrite Hlt. reflexivity.
Qed.

Lemma local_further_keeps_local_witness :
  (LocalMediaProgress.lastUpdate (deref aheadLocalState aheadLocal)
   < MediaProgress.lastUpdate newerBehindServer)%Q /\
  run (resolveProgressConflicts newerBehindEnv aheadLocal "server-item-1") aheadLocalState
  = (Returned aheadLocal, aheadLocalState,
     [GetResource "server-item-1"; Log LogLocalFurther]).
Proof.
  split; [reflexivity|].
  apply (local_further_keeps_local newerBehindEnv aheadLocalState aheadLocal
           newerBehindServer "server-item-1" eq_refl).
  reflexivity.
Defined.

(** ** Pushing the local record *)

Lemma syncAttempt_local_push (env : Env) (progress l : LocalMediaProgress.t) (n : nat)
    (s : State) (sid : string) :
  List.find (sameObject progress) (localMediaProgress s) = Some l ->
  getServerLibraryItemId env s progress = Some sid ->
  serverNotAhead env sid l ->
  exists logs,
    List.filter isTransport logs = [] /\
    run (syncAttempt env progress n) s =
    match ApiClient_patchResource env sid (payloadOfLocal l) with
    | PatchSuccess true =>
        if Realm_opens env && Realm_writes env then
          (Returned tt,
           set_retryAttempts (delete (LocalMediaProgress.id progress))
             (assign progress (LocalMediaProgress.set_lastServerSync (Some (clock s))) s),
           GetResource sid :: logs ++ [PatchResource sid (payloadOfLocal l);
                                       Log (LogSynced sid)])
        else
          (Returned tt,
           set_retryAttempts (<[LocalMediaProgress.id progress := (n + 1)%nat]>) s,
           GetResource sid :: logs ++ [PatchResource sid (payloadOfLocal l);
                                       Log (LogErrorSyncing (LocalMediaProgress.id progress))])
    | _ =>
        (Returned tt,
         set_retryAttempts (<[LocalMediaProgress.id progress := (n + 1)%nat]>) s,
         GetResource sid :: logs ++ [PatchResource sid (payloadOfLocal l);
                                     Log (LogFailedWillRetry (LocalMediaProgress.id progress))])
    end.
Proof.
  intros Hl Hsid Hbehind.
  pose proof (deref_stored s progress l Hl) as Hderef.
  destruct Hbehind as [Hget | (server & Hget & Hlt)].
  - exists []. split; [reflexivity|].
    unfold_attempt. exec. rewrite Hsid. exec. rewrite Hget. exec. rewrite Hderef.
    change {| ProgressData.ebookLocation := _; ProgressData.ebookProgress := _;
              ProgressData.lastUpdate := _; ProgressData.isFinished := _ |}
      with (payloadOfLocal l).
    destruct (ApiClient_patchResource env sid (payloadOfLocal l)) as [[]|]; exec;
      try reflexivity.
    destruct (Realm_opens env && Realm_writes env); reflexivity.
  - exists [Log LogLocalFurther]. split; [reflexivity|].
    apply gt_true in Hlt.
    unfold_attempt. exec. rewrite Hsid. exec. rewrite Hget. exec. rewrite Hderef, Hlt.
    exec. rewrite Hderef.
    change {| ProgressData.ebookLocation := _; ProgressData.ebookProgress := _;
              ProgressData.lastUpdate := _; ProgressData.isFinished := _ |}
      with (payloadOfLocal l).
    destruct (ApiClient_patchResource env sid (payloadOfLocal l)) as [[]|]; exec;
      try reflexivity.
    destruct (Realm_opens env && Realm_writes env); reflexivity.
Qed.

Lemma afterBackoff_same (s : State) (progress : LocalMediaProgress.t) :
  localMediaProgress (afterBackoff s progress) = localMediaProgress s /\
  localLibraryItems (afterBackoff s progress) = localLibraryItems s /\
  retryAttempts (afterBackoff s progress) = retryAttempts s /\
  isCurrentlySyncing (afterBackoff s progress) = isCurrentlySyncing s.
Proof.
  unfold afterBackoff. destruct (0 <? _)%nat; repeat split; reflexivity.
Qed.

Lemma getServerLibraryItemId_afterBackoff (env : Env) (s : State)
    (progress : LocalMediaProgress.t) :
  getServerLibraryItemId env (afterBackoff s progress) progress
  = getServerLibraryItemId env s progress.
Proof. unfold afterBackoff. destruct (0 <? _)%nat; reflexivity. Qed.

(** A call below the maximum is its do/catch block, entered after the
    backoff, behind a prefix without transport calls. *)
Lemma run_syncProgressItem_below_max (env : Env) (progress : LocalMediaProgress.t)
    (s : State) :
  (currentRetriesOf s progress < maxRetryAttempts)%nat ->
  exists prefix,
    List.filter isTransport prefix = [] /\
    run (syncProgressItem env progress) s =
    match run (syncAttempt env progress (currentRetriesOf s progress))
            (afterBackoff s progress) with
    | (r, s', t) => (r, s', prefix ++ t)
    end.
Proof.
  intros Hlt. rewrite run_syncProgressItem. cbv zeta. unfold afterBackoff.
  replace (maxRetryAttempts <=? currentRetriesOf s progress)%nat with false
    by (symmetry; apply Nat.leb_gt; exact Hlt).
  destruct (0 <? currentRetriesOf s progress)%nat.
  - match goal with |- context [Log (LogSyncing ?lid ?k)] =>
      exists [Sleep (calculateRetryDelay (currentRetriesOf s progress)); Log (LogSyncing lid k)]
    end.
    split; [reflexivity|].
    destruct (run (syncAttempt env progress (currentRetriesOf s progress)) _)
      as [[r s'] t]. reflexivity.
  - match goal with |- context [Log (LogSyncing ?lid ?k)] =>
      exists [Log (LogSyncing lid k)]
    end.
    split; [reflexivity|].
    destruct (run (syncAttempt env progress (currentRetriesOf s progress)) _)
      as [[r s'] t]. reflexivity.
Qed.

(** X2.  The happy path.  For a stored record below the retry maximum whose
    server copy is missing or strictly behind, a call whose push is answered
    with success makes exactly one fetch and one push of the local values,
    writes nothing to the record but [lastServerSync] (the current time), and
    removes the record's retry state. *)
Theorem local_push_success_marks_synced
    (env : Env) (s : State) (progress l : LocalMediaProgress.t) (sid : string) :
  Realm_opens env = true ->
  Realm_writes env = true ->
  (currentRetriesOf s progress < maxRetryAttempts)%nat ->
  List.find (sameObject progress) (localMediaProgress s) = Some l ->
  getServerLibraryItemId env s progress = Some sid ->
  serverNotAhead env sid l ->
  ApiClient_patchResource env sid (payloadOfLocal l) = PatchSuccess true ->
  let s' := stateAfter (syncProgressItem env progress) s in
  transportCalls (traceOf (syncProgressItem env progress) s)
  = [GetResource sid; PatchResource sid (payloadOfLocal l)] /\
  deref s' progress = LocalMediaProgress.set_lastServerSync (Some (clock s')) l /\
  retryAttempts s' !! LocalMediaProgress.id progress = None.
Proof.
  intros Hopen Hwrite Hmax Hl Hsid Hbehind Hpatch. cbv zeta.
  destruct (run_syncProgressItem_below_max env progress s Hmax) as (prefix & Hprefix & Hrun).
  destruct (afterBackoff_same s progress) as (Hobjects & _).
  assert (List.find (sameObject progress) (localMediaProgress (afterBackoff s progress))
          = Some l) as Hl1 by (rewrite Hobjects; exact Hl).
  destruct (syncAttempt_local_push env progress l (currentRetriesOf s progress)
              (afterBackoff s progress) sid Hl1
              (eq_trans (getServerLibraryItemId_afterBackoff env s progress) Hsid) Hbehind)
    as (logs & Hlogs & Hattempt).
  rewrite Hpatch, Hopen, Hwrite in Hattempt. cbn [andb] in Hattempt.
  unfold traceOf, stateAfter. rewrite Hrun, Hattempt. cbn [fst snd].
  split; [|split].
  - unfold transportCalls. rewrite List.filter_app, Hprefix. cbn [List.filter isTransport app].
    rewrite List.filter_app, Hlogs. reflexivity.
  - unfold deref. cbn [localMediaProgress set_retryAttempts].
    rewrite (find_stored_assign _ progress l
               (LocalMediaProgress.set_lastServerSync (Some (clock (afterBackoff s progress))))
               (fun _ => eq_refl) Hl1).
    reflexivity.
  - apply lookup_delete_eq.
Qed.

Lemma local_push_success_marks_synced_witness :
  let s' := stateAfter (syncProgressItem healthy pendingLocal) pendingState in
  transportCalls (traceOf (syncProgressItem healthy pendingLocal) pendingState)
  = [GetResource "server-item-1"; PatchResource "server-item-1" (payloadOfLocal pendingLocal)] /\
  deref s' pendingLocal
  = LocalMediaProgress.set_lastServerSync (Some (clock s')) pendingLocal /\
  retryAttempts s' !! "progress-1" = None.
Proof.
  assert (currentRetriesOf pendingState pendingLocal < maxRetryAttempts)%nat as Hmax
    by (vm_compute; lia).
  assert (serverNotAhead healthy "server-item-1" pendingLocal) as Hbehind
    by (left; reflexivity).
  exact (local_push_success_marks_synced healthy pendingState pendingLocal pendingLocal
           "server-item-1" eq_refl eq_refl Hmax eq_refl eq_refl Hbehind eq_refl).
Defined.

(** X3.  A push that is not answered with success leaves every stored record
    exactly as it was (so the record stays pending) and puts the incremented
    count in the retry dictionary. *)
Theorem failed_push_keeps_record_pending
    (env : Env) (s : State) (progress l : LocalMediaProgress.t) (sid : string) :
  (currentRetriesOf s progress < maxRetryAttempts)%nat ->
  List.find (sameObject progress) (localMediaProgress s) = Some l ->
  getServerLibraryItemId env s progress = Some sid ->
  serverNotAhead env sid l ->
  ApiClient_patchResource env sid (payloadOfLocal l) <> PatchSuccess true ->
  let s' := stateAfter (syncProgressItem env progress) s in
  transportCalls (traceOf (syncProgressItem env progress) s)
  = [GetResource sid; PatchResource sid (payloadOfLocal l)] /\
  localMediaProgress s' = localMediaProgress s /\
  retryAttempts s' !! LocalMediaProgress.id progress
  = Some (currentRetriesOf s progress + 1)%nat.
Proof.
  intros Hmax Hl Hsid Hbehind Hpatch. cbv zeta.
  destruct (run_syncProgressItem_below_max env progress s Hmax) as (prefix & Hprefix & Hrun).
  destruct (afterBackoff_same s progress) as (Hobjects & _).
  assert (List.find (sameObject progress) (localMediaProgress (afterBackoff s progress))
          = Some l) as Hl1 by (rewrite Hobjects; exact Hl).
  destruct (syncAttempt_local_push env progress l (currentRetriesOf s progress)
              (afterBackoff s progress) sid Hl1
              (eq_trans (getServerLibraryItemId_afterBackoff env s progress) Hsid) Hbehind)
    as (logs & Hlogs & Hattempt).
  unfold traceOf, stateAfter. rewrite Hrun, Hattempt.
  destruct (ApiClient_patchResource env sid (payloadOfLocal l)) as [[]|];
    [destruct (Hpatch eq_refl)| |];
    cbn [fst snd];
    (split; [|split; [exact Hobjects | apply lookup_insert_eq]]);
    unfold transportCalls; rewrite List.filter_app, Hprefix;
    cbn [List.filter isTransport app]; rewrite List.filter_app, Hlogs; reflexivity.
Qed.

Lemma failed_push_keeps_record_pending_witness :
  let s' := stateAfter (syncProgressItem pushTimesOut pendingLocal) pendingState in
  localMediaProgress s' = localMediaProgress pendingState /\
  retryAttempts s' !! "progress-1" = Some 1%nat.
Proof.
  assert (currentRetriesOf pendingState pendingLocal < maxRetryAttempts)%nat as Hmax
    by (vm_compute; lia).
  assert (serverNotAhead pushTimesOut "server-item-1" pendingLocal) as Hbehind
    by (left; reflexivity).
  assert (ApiClient_patchResource pushTimesOut "server-item-1" (payloadOfLocal pendingLocal)
          <> PatchSuccess true) as Hpatch by discriminate.
  destruct (failed_push_keeps_record_pending pushTimesOut pendingState pendingLocal
              pendingLocal "server-item-1" Hmax eq_refl eq_refl Hbehind Hpatch)
    as (_ & Hobjects & Hretry).
  cbv zeta. split; [exact Hobjects | exact Hretry].
Defined.

(** ** Manual sync *)

(** X4.  The typed failures of [manualSyncProgress], in the order they are
    checked: without a server configuration the call throws [noServerConfig]
    (also when offline); with one but offline, [noNetwork]; online with Realm
    readable but no record of the item, [progressNotFound].  In each case no
    event is produced and the state is untouched. *)
Theorem manual_sync_typed_failures (env : Env) (s : State) (localLibraryItemId : string) :
  (Store_serverConfig env = None ->
   run (manualSyncProgress env localLibraryItemId) s
   = (Thrown (SyncError noServerConfig), s, [])) /\
  (Store_serverConfig env <> None ->
   isNetworkAvailable env = false ->
   run (manualSyncProgress env localLibraryItemId) s
   = (Thrown (SyncError noNetwork), s, [])) /\
  (Store_serverConfig env <> None ->
   isNetworkAvailable env = true ->
   Realm_opens env = true ->
   firstFor localLibraryItemId s = None ->
   run (manualSyncProgress env localLibraryItemId) s
   = (Thrown (SyncError progressNotFound), s, [])).
Proof.
  unfold manualSyncProgress. repeat split.
  - intros ->. reflexivity.
  - intros Hconfig ->. destruct (Store_serverConfig env); [reflexivity | congruence].
  - intros Hconfig -> -> Hnone. destruct (Store_serverConfig env); [|congruence].
    cbn [negb run bind get]. rewrite Hnone. reflexivity.
Qed.

Lemma manual_sync_typed_failures_witness :
  run (manualSyncProgress offlineNoConfig "local-item-1") pendingState
  = (Thrown (SyncError noServerConfig), pendingState, []) /\
  run (manualSyncProgress offline "local-item-1") pendingState
  = (Thrown (SyncError noNetwork), pendingState, []) /\
  run (manualSyncProgress healthy "local-item-9") pendingState
  = (Thrown (SyncError progressNotFound), pendingState, []).
Proof.
  destruct (manual_sync_typed_failures offlineNoConfig pendingState "local-item-1")
    as (H1 & _ & _).
  destruct (manual_sync_typed_failures offline pendingState "local-item-1")
    as (_ & H2 & _).
  destruct (manual_sync_typed_failures healthy pendingState "local-item-9")
    as (_ & _ & H3).
  split; [exact (H1 eq_refl)|]. split.
  - apply H2; [discriminate | reflexivity].
  - apply H3; [discriminate | reflexivity | reflexivity | reflexivity].
Defined.

(** Keys of the stored objects are never rewritten. *)
Lemma assign_keys (progress : LocalMediaProgress.t)
    (f : LocalMediaProgress.t -> LocalMediaProgress.t) (s : State) :
  (forall p, keysOf (f p) = keysOf p) ->
  List.map keysOf (localMediaProgress (assign progress f s))
  = List.map keysOf (localMediaProgress s).
Proof.
  intros Hf. unfold assign. cbn [localMediaProgress set_localMediaProgress].
  rewrite List.map_map. apply List.map_ext. intros p.
  destruct (sameObject progress p); [apply Hf | reflexivity].
Qed.

Lemma syncAttempt_keys (env : Env) (progress : LocalMediaProgress.t) (n : nat) (s : State) :
  List.map keysOf (localMediaProgress (stateAfter (syncAttempt env progress n) s))
  = List.map keysOf (localMediaProgress s).
Proof.
  unfold stateAfter. unfold_attempt. exec.
  repeat (branch; exec); cbn [localMediaProgress set_retryAttempts];
    rewrite ?assign_keys by (intros; reflexivity); reflexivity.
Qed.

Lemma syncProgressItem_keys (env : Env) (progress : LocalMediaProgress.t) (s : State) :
  List.map keysOf (localMediaProgress (stateAfter (syncProgressItem env progress) s))
  = List.map keysOf (localMediaProgress s).
Proof.
  unfold stateAfter. rewrite run_syncProgressItem. cbv zeta.
  destruct (maxRetryAttempts <=? _)%nat; [reflexivity|].
  destruct (0 <? _)%nat;
    match goal with |- context [run (syncAttempt ?e ?p ?n) ?s1] =>
      pose proof (syncAttempt_keys e p n s1) as H; unfold stateAfter in H;
      destruct (run (syncAttempt e p n) s1) as [[r s'] t] end;
    exact H.
Qed.

Lemma find_by_item_keys (localLibraryItemId : string) (l l' : list LocalMediaProgress.t) :
  List.map keysOf l = List.map keysOf l' ->
  List.find (fun p => String.eqb (LocalMediaProgress.localLibraryItemId p) localLibraryItemId) l
  = None ->
  List.find (fun p => String.eqb (LocalMediaProgress.localLibraryItemId p) localLibraryItemId) l'
  = None.
Proof.
  revert l'. induction l as [|p l IH]; intros [|p' l'] Hkeys Hnone;
    try discriminate Hkeys; [reflexivity|].
  cbn [List.map] in Hkeys. unfold keysOf at 1 2 in Hkeys.
  injection Hkeys as _ Hitem Hrest.
  cbn [List.find] in Hnone |- *. rewrite <- Hitem.
  destruct (String.eqb _ _); [discriminate Hnone|].
  exact (IH l' Hrest Hnone).
Qed.

(** X5.  Whenever [manualSyncProgress] returns, its result is the negation
    of what [hasPendingSync] answers for the item right afterwards: it
    reports success exactly when the item is no longer pending. *)
Theorem manual_sync_result_is_not_pending
    (env : Env) (s : State) (localLibraryItemId : string) (b : bool) :
  outcomeOf (manualSyncProgress env localLibraryItemId) s = Returned b ->
  hasPendingSync env (stateAfter (manualSyncProgress env localLibraryItemId) s)
    localLibraryItemId
  = negb b.
Proof.
  unfold outcomeOf, stateAfter, manualSyncProgress, hasPendingSync.
  destruct (Store_serverConfig env); [|discriminate].
  destruct (isNetworkAvailable env); [|discriminate].
  destruct (Realm_opens env); [|discriminate].
  cbn [negb run bind get].
  destruct (firstFor localLibraryItemId s) as [progress|] eqn:Hfirst; [|discriminate].
  rewrite run_bind.
  destruct (syncProgressItem_returns env progress s) as [Hr _].
  pose proof (syncProgressItem_keys env progress s) as Hkeys.
  unfold outcomeOf, stateAfter in Hr, Hkeys.
  destruct (run (syncProgressItem env progress) s) as [[r s'] trace].
  cbn [fst snd] in Hr, Hkeys. subst r. cbn [run fst snd].
  destruct (firstFor localLibraryItemId s') as [updated|] eqn:Hupdated.
  - intros Hb. injection Hb as <-. unfold updatedSinceSync.
    destruct (LocalMediaProgress.lastServerSync updated); [|reflexivity].
    unfold gt, ge. reflexivity.
  - exfalso. unfold firstFor in Hfirst, Hupdated.
    rewrite (find_by_item_keys localLibraryItemId _ _ Hkeys Hupdated) in Hfirst.
    discriminate Hfirst.
Qed.

Lemma manual_sync_result_is_not_pending_witness :
  outcomeOf (manualSyncProgress healthy "local-item-1") pendingState = Returned true /\
  hasPendingSync healthy (stateAfter (manualSyncProgress healthy "local-item-1") pendingState)
    "local-item-1"
  = false.
Proof.
  split; [reflexivity|].
  exact (manual_sync_result_is_not_pending healthy pendingState "local-item-1" true eq_refl).
Defined.

(** X6.  A manual sync of a record that has reached the retry maximum makes
    no transport call: it only drops the retry state, and its result is
    whether the record was already in sync before the call. *)
Theorem manual_sync_at_max_retries_only_resets
    (env : Env) (s : State) (localLibraryItemId : string) (progress : LocalMediaProgress.t) :
  Store_serverConfig env <> None ->
  isNetworkAvailable env = true ->
  Realm_opens env = true ->
  firstFor localLibraryItemId s = Some progress ->
  (maxRetryAttempts <= currentRetriesOf s progress)%nat ->
  run (manualSyncProgress env localLibraryItemId) s
  = (Returned (negb (updatedSinceSync progress)),
     set_retryAttempts (delete (LocalMediaProgress.id progress)) s,
     [Log (LogMaxRetry (LocalMediaProgress.id progress))]).
Proof.
  intros Hconfig Hnet Hopen Hfirst Hmax. unfold manualSyncProgress.
  destruct (Store_serverConfig env); [|congruence].
  rewrite Hnet, Hopen. cbn [negb run bind get]. rewrite Hfirst.
  rewrite run_bind, run_syncProgressItem. cbv zeta.
  replace (maxRetryAttempts <=? currentRetriesOf s progress)%nat with true
    by (symmetry; apply Nat.leb_le; exact Hmax).
  cbn [run].
  change (firstFor localLibraryItemId
            (set_retryAttempts (delete (LocalMediaProgress.id progress)) s))
    with (firstFor localLibraryItemId s).
  rewrite Hfirst. unfold updatedSinceSync, gt, ge.
  destruct (LocalMediaProgress.lastServerSync progress); [|reflexivity].
  rewrite negb_involutive. reflexivity.
Qed.

Lemma manual_sync_at_max_retries_only_resets_witness :
  run (manualSyncProgress healthy "local-item-1") exhaustedState
  = (Returned false, set_retryAttempts (delete "progress-1") exhaustedState,
     [Log (LogMaxRetry "progress-1")]).
Proof.
  assert (maxRetryAttempts <= currentRetriesOf exhaustedState pendingLocal)%nat as Hmax
    by (vm_compute; lia).
  assert (Store_serverConfig healthy <> None) as Hconfig by discriminate.
  exact (manual_sync_at_max_retries_only_resets healthy exhaustedState "local-item-1"
           pendingLocal Hconfig eq_refl eq_refl eq_refl Hmax).
Defined.

(** ** Eligibility *)

(** X7.  For the active server, the pending listing selects exactly the
    records that [needsServerSync] accepts and that have a non-empty ebook
    location: records without a location are never synced by a pass, though
    [needsServerSync] says they need it. *)
Theorem pending_listing_is_needsServerSync_with_location
    (env : Env) (serverConfig : ServerConnectionConfig.t) (p : LocalMediaProgress.t) :
  Store_serverConfig env = Some serverConfig ->
  isPendingFor (ServerConnectionConfig.id serverConfig) p
  = needsServerSync env p
    && match LocalMediaProgress.ebookLocation p with
       | Some location => negb (String.eqb location "")
       | None => false
       end.
Proof.
  intros Hconfig. unfold isPendingFor, needsServerSync. rewrite Hconfig.
  destruct (LocalMediaProgress.serverConnectionConfigId p) as [c|]; [|reflexivity].
  rewrite (String.eqb_sym c).
  destruct (String.eqb (ServerConnectionConfig.id serverConfig) c); [|reflexivity].
  cbn [andb]. apply andb_comm.
Qed.

Lemma pending_listing_is_needsServerSync_with_location_witness :
  needsServerSync healthy noLocationLocal = true /\
  isPendingFor "A" noLocationLocal = false.
Proof.
  split; [reflexivity|].
  exact (eq_trans
           (pending_listing_is_needsServerSync_with_location healthy
              {| ServerConnectionConfig.id := "A" |} noLocationLocal eq_refl)
           eq_refl).
Defined.

(** ** Results of the background passes *)

(** X8.  With a server configured, network and a readable Realm,
    [performBackgroundSync] reports success exactly when there was at least
    one pending record, whatever the outcome of the syncs themselves: the
    quiet wrapper counts every call as a success. *)
Theorem background_sync_success_means_pending_found
    (env : Env) (serverConfig : ServerConnectionConfig.t) (s : State) :
  Store_serverConfig env = Some serverConfig ->
  isNetworkAvailable env = true ->
  Realm_opens env = true ->
  outcomeOf (performBackgroundSync env) s
  = Returned
      (match List.filter (isPendingFor (ServerConnectionConfig.id serverConfig))
               (localMediaProgress s) with
       | [] => false
       | _ => true
       end).
Proof.
  intros Hconfig Hnet Hopen. unfold outcomeOf.
  rewrite run_performBackgroundSync, Hconfig, Hnet, Hopen. cbv zeta. cbn [negb fst].
  destruct (List.filter _ (localMediaProgress s)); reflexivity.
Qed.

Lemma background_sync_success_means_pending_found_witness :
  outcomeOf (performBackgroundSync pushTimesOut) pendingState = Returned true /\
  retryAttempts (stateAfter (performBackgroundSync pushTimesOut) pendingState) !! "progress-1"
  = Some 1%nat.
Proof.
  split; [|reflexivity].
  exact (background_sync_success_means_pending_found pushTimesOut
           {| ServerConnectionConfig.id := "A" |} pendingState eq_refl eq_refl eq_refl).
Defined.

(** X9.  [performQuickSync] answers [true] exactly when a server is
    configured, the network is available and Realm can be read; what happens
    to the items it syncs has no influence on the result. *)
Theorem quick_sync_result (env : Env) (s : State) :
  outcomeOf (performQuickSync env) s
  = Returned (match Store_serverConfig env with
              | Some _ => isNetworkAvailable env && Realm_opens env
              | None => false
              end).
Proof.
  unfold outcomeOf. rewrite run_performQuickSync.
  destruct (Store_serverConfig env); [|reflexivity].
  destruct (isNetworkAvailable env); [|reflexivity].
  destruct (Realm_opens env); [|reflexivity].
  cbv zeta. destruct (List.filter _ (localMediaProgress s)); reflexivity.
Qed.

(** ** The pass flag *)

(** X10.  A [syncPendingProgress] trigger run to the end of the task it
    starts leaves [isCurrentlySyncing] as it found it: a pass that starts
    always clears the flag again, whether Realm fails or items fail; a
    trigger that finds the flag set does not clear it. *)
Theorem pending_pass_restores_flag (env : Env) (s : State) :
  isCurrentlySyncing (stateAfter (syncPendingProgressTask env) s) = isCurrentlySyncing s.
Proof.
  unfold stateAfter, syncPendingProgressTask, syncPendingProgress. cbn [run bind get].
  destruct (isCurrentlySyncing s) eqn:Hflag; [cbn; exact Hflag|].
  destruct (isNetworkAvailable env); [|cbn; exact Hflag].
  destruct (Store_serverConfig env) as [serverConfig|]; [|cbn; exact Hflag].
  cbn [negb run bind get log emit modify await]. rewrite run_bind, run_performSync.
  destruct (Realm_opens env); [|reflexivity].
  cbv zeta.
  match goal with |- context [run (forEach ?l ?f) ?s1] =>
    destruct (run (forEach l f) s1) as [[r s'] t] end.
  reflexivity.
Qed.

(** ** Offline *)

(** X11.  Without network no trigger does anything: the periodic trigger,
    [onProgressUpdated], both background passes and the manual sync leave the
    state as it is and make no transport call. *)
Theorem offline_triggers_are_inert (env : Env) (s : State) (localLibraryItemId : string) :
  isNetworkAvailable env = false ->
  inert (syncPendingProgressTask env) s /\
  inert (onProgressUpdated env localLibraryItemId) s /\
  inert (performBackgroundSync env) s /\
  inert (performQuickSync env) s /\
  inert (manualSyncProgress env localLibraryItemId) s.
Proof.
  intros Hnet. unfold inert, stateAfter, traceOf. repeat split.
  1,2: unfold syncPendingProgressTask, syncPendingProgress; cbn [run bind get];
       destruct (isCurrentlySyncing s); [reflexivity|]; rewrite Hnet; reflexivity.
  1,2: unfold onProgressUpdated; rewrite Hnet; reflexivity.
  1,2: rewrite run_performBackgroundSync, Hnet;
       destruct (Store_serverConfig env); reflexivity.
  1,2: rewrite run_performQuickSync, Hnet;
       destruct (Store_serverConfig env); reflexivity.
  1,2: unfold manualSyncProgress; rewrite Hnet;
       destruct (Store_serverConfig env); reflexivity.
Qed.

Lemma offline_triggers_are_inert_witness :
  inert (syncPendingProgressTask offline) pendingState /\
  inert (manualSyncProgress offline "local-item-1") pendingState.
Proof.
  destruct (offline_triggers_are_inert offline pendingState "local-item-1" eq_refl)
    as (H1 & _ & _ & _ & H5).
  split; [exact H1 | exact H5].
Defined.

(** ** What one call can do *)

Lemma syncAttempt_transport (env : Env) (progress : LocalMediaProgress.t) (n : nat)
    (s : State) :
  match getServerLibraryItemId env s progress with
  | None => transportCalls (traceOf (syncAttempt env progress n) s) = []
  | Some sid =>
      transportCalls (traceOf (syncAttempt env progress n) s) = [GetResource sid] \/
      exists data,
        transportCalls (traceOf (syncAttempt env progress n) s)
        = [GetResource sid; PatchResource sid data]
  end.
Proof.
  unfold traceOf. unfold_attempt. exec.
  destruct (getServerLibraryItemId env s progress) as [sid|]; exec; [|reflexivity].
  repeat (branch; exec);
    first [ left; reflexivity | right; eexists; reflexivity ].
Qed.

(** X12.  One call of [syncProgressItem] contacts the server at most twice
    and in a fixed order: nothing at all, or one fetch for the mapped server
    item, or that fetch followed by one push to the same item.  It never
    pushes without having fetched. *)
Theorem one_call_fetches_then_pushes
    (env : Env) (progress : LocalMediaProgress.t) (s : State) :
  transportCalls (traceOf (syncProgressItem env progress) s) = [] \/
  exists sid,
    getServerLibraryItemId env s progress = Some sid /\
    (transportCalls (traceOf (syncProgressItem env progress) s) = [GetResource sid] \/
     exists data,
       transportCalls (traceOf (syncProgressItem env progress) s)
       = [GetResource sid; PatchResource sid data]).
Proof.
  destruct (Nat.lt_ge_cases (currentRetriesOf s progress) maxRetryAttempts) as [Hlt | Hge].
  - destruct (run_syncProgressItem_below_max env progress s Hlt) as (prefix & Hprefix & Hrun).
    pose proof (syncAttempt_transport env progress (currentRetriesOf s progress)
                  (afterBackoff s progress)) as Hattempt.
    rewrite getServerLibraryItemId_afterBackoff in Hattempt.
    unfold traceOf in *. rewrite Hrun.
    destruct (run (syncAttempt env progress (currentRetriesOf s progress))
                (afterBackoff s progress)) as [[r s'] t].
    cbn [fst snd] in *. unfold transportCalls in *.
    rewrite List.filter_app, Hprefix. cbn [app].
    destruct (getServerLibraryItemId env s progress) as [sid|]; [|left; exact Hattempt].
    right. exists sid. split; [reflexivity | exact Hattempt].
  - left. unfold traceOf. rewrite run_syncProgressItem. cbv zeta.
    replace (maxRetryAttempts <=? currentRetriesOf s progress)%nat with true
      by (symmetry; apply Nat.leb_le; exact Hge).
    reflexivity.
Qed.

Lemma syncAttempt_untouched (env : Env) (progress : LocalMediaProgress.t) (n : nat)
    (s : State) :
  let s' := stateAfter (syncAttempt env progress n) s in
  localLibraryItems s' = localLibraryItems s /\
  clock s' = clock s /\
  (retryAttempts s' = retryAttempts s \/
   retryAttempts s' = delete (LocalMediaProgress.id progress) (retryAttempts s) \/
   retryAttempts s' = <[LocalMediaProgress.id progress := (n + 1)%nat]> (retryAttempts s)).
Proof.
  cbv zeta. unfold stateAfter. unfold_attempt. exec.
  repeat (branch; exec); (split; [reflexivity|]); (split; [reflexivity|]);
    first [ left; reflexivity | right; left; reflexivity | right; right; reflexivity ].
Qed.

Lemma calculateRetryDelay_pos (n : nat) : (0 < calculateRetryDelay n)%Q.
Proof.
  unfold calculateRetryDelay, baseRetryDelay.
  apply Qmult_lt_0_compat; [apply Qpower_0_lt|]; reflexivity.
Qed.

Lemma clock_afterBackoff (s : State) (progress : LocalMediaProgress.t) :
  (clock s <= clock (afterBackoff s progress))%Q.
Proof.
  unfold afterBackoff. destruct (0 <? _)%nat; [|apply Qle_refl].
  cbn [clock set_clock].
  rewrite <- (Qplus_0_r (clock s)) at 1. apply Qplus_le_r.
  apply Qlt_le_weak. apply Qmult_lt_0_compat; [apply calculateRetryDelay_pos | reflexivity].
Qed.

(** What a call does to the retry dictionary: nothing, or its own entry is
    removed, or its own entry becomes the count it read plus one. *)
Lemma syncProgressItem_untouched (env : Env) (progress : LocalMediaProgress.t) (s : State) :
  let s' := stateAfter (syncProgressItem env progress) s in
  localLibraryItems s' = localLibraryItems s /\
  (clock s <= clock s')%Q /\
  (retryAttempts s' = retryAttempts s \/
   retryAttempts s' = delete (LocalMediaProgress.id progress) (retryAttempts s) \/
   ((currentRetriesOf s progress < maxRetryAttempts)%nat /\
    retryAttempts s'
    = <[LocalMediaProgress.id progress := (currentRetriesOf s progress + 1)%nat]>
        (retryAttempts s))).
Proof.
  cbv zeta.
  destruct (Nat.lt_ge_cases (currentRetriesOf s progress) maxRetryAttempts) as [Hlt | Hge].
  - destruct (run_syncProgressItem_below_max env progress s Hlt) as (prefix & _ & Hrun).
    pose proof (syncAttempt_untouched env progress (currentRetriesOf s progress)
                  (afterBackoff s progress)) as Hattempt.
    cbv zeta in Hattempt. unfold stateAfter in *. rewrite Hrun.
    destruct (run (syncAttempt env progress (currentRetriesOf s progress))
                (afterBackoff s progress)) as [[r s'] t].
    cbn [fst snd] in *.
    destruct (afterBackoff_same s progress) as (_ & Hitems & Hretry & _).
    destruct Hattempt as (Hitems' & Hclock & Hretries).
    rewrite Hitems', Hitems, Hclock. rewrite Hretry in Hretries.
    split; [reflexivity|]. split; [apply clock_afterBackoff|].
    destruct Hretries as [H | [H | H]]; auto.
  - unfold stateAfter. rewrite run_syncProgressItem. cbv zeta.
    replace (maxRetryAttempts <=? currentRetriesOf s progress)%nat with true
      by (symmetry; apply Nat.leb_le; exact Hge).
    cbn. split; [reflexivity|]. split; [apply Qle_refl|]. right. left. reflexivity.
Qed.

(** X13.  A call of [syncProgressItem] for one record leaves the rest of
    the manager alone: the local library items and the pass flag are
    unchanged, the retry state of every other record is unchanged, and the
    clock only moves forward (by the backoff slept). *)
Theorem one_call_touches_only_its_record
    (env : Env) (progress : LocalMediaProgress.t) (s : State) :
  let s' := stateAfter (syncProgressItem env progress) s in
  localLibraryItems s' = localLibraryItems s /\
  isCurrentlySyncing s' = isCurrentlySyncing s /\
  (clock s <= clock s')%Q /\
  forall otherId : string,
    otherId <> LocalMediaProgress.id progress ->
    retryAttempts s' !! otherId = retryAttempts s !! otherId.
Proof.
  destruct (syncProgressItem_untouched env progress s) as (Hitems & Hclock & Hretries).
  cbv zeta in *. split; [exact Hitems|]. split; [|split; [exact Hclock|]].
  - unfold stateAfter.
    destruct (Nat.lt_ge_cases (currentRetriesOf s progress) maxRetryAttempts) as [Hlt | Hge].
    + destruct (run_syncProgressItem_below_max env progress s Hlt) as (prefix & _ & Hrun).
      rewrite Hrun.
      destruct (afterBackoff_same s progress) as (_ & _ & _ & Hflag).
      rewrite <- Hflag.
      generalize (afterBackoff s progress). intros s1.
      unfold_attempt. exec. repeat (branch; exec); reflexivity.
    + rewrite run_syncProgressItem. cbv zeta.
      replace (maxRetryAttempts <=? currentRetriesOf s progress)%nat with true
        by (symmetry; apply Nat.leb_le; exact Hge).
      reflexivity.
  - intros otherId Hother.
    destruct Hretries as [-> | [-> | [_ ->]]].
    + reflexivity.
    + apply lookup_delete_ne. congruence.
    + apply lookup_insert_ne. congruence.
Qed.

(** X14.  The retry counts never exceed the maximum: if every count in the
    dictionary is at most [maxRetryAttempts] before a call, so it is after. *)
Theorem retry_counts_stay_bounded
    (env : Env) (progress : LocalMediaProgress.t) (s : State) :
  (forall k n, retryAttempts s !! k = Some n -> (n <= maxRetryAttempts)%nat) ->
  forall k n,
    retryAttempts (stateAfter (syncProgressItem env progress) s) !! k = Some n ->
    (n <= maxRetryAttempts)%nat.
Proof.
  intros Hbound k n.
  destruct (syncProgressItem_untouched env progress s) as (_ & _ & Hretries).
  cbv zeta in Hretries.
  destruct Hretries as [-> | [-> | [Hlt ->]]].
  - apply Hbound.
  - intros H. apply lookup_delete_Some in H as [_ H]. exact (Hbound k n H).
  - intros H. apply lookup_insert_Some in H as [[_ <-] | [_ H]]; [lia|].
    exact (Hbound k n H).
Qed.

Lemma retry_counts_stay_bounded_witness :
  retryAttempts (stateAfter (syncProgressItem pushTimesOut pendingLocal) exhaustedState)
    !! "progress-9" = None /\
  retryAttempts (stateAfter (syncProgressItem pushTimesOut pendingLocal) fourFailuresState)
    !! "progress-1" = Some 5%nat /\
  (5 <= maxRetryAttempts)%nat.
Proof.
  split; [reflexivity|]. split; [reflexivity|].
  apply (retry_counts_stay_bounded pushTimesOut pendingLocal fourFailuresState)
    with (k := "progress-1"); [|reflexivity].
  intros k n H. unfold fourFailuresState, deviceWith in H. cbn [retryAttempts] in H.
  apply lookup_singleton_Some in H as [_ <-]. unfold maxRetryAttempts. lia.
Defined.

(** ** The backoff schedule *)

Lemma sleeps_app (t1 t2 : list Event) : sleeps (t1 ++ t2) = sleeps t1 ++ sleeps t2.
Proof. unfold sleeps. apply List.flat_map_app. Qed.

Lemma sleeps_syncAttempt (env : Env) (progress : LocalMediaProgress.t) (n : nat) (s : State) :
  sleeps (traceOf (syncAttempt env progress n) s) = [].
Proof.
  unfold traceOf. unfold_attempt. exec.
  repeat (branch; exec); reflexivity.
Qed.

Lemma sleeps_syncProgressItem (env : Env) (progress : LocalMediaProgress.t) (s : State) :
  sleeps (traceOf (syncProgressItem env progress) s)
  = if (maxRetryAttempts <=? currentRetriesOf s progress)%nat then []
    else if (0 <? currentRetriesOf s progress)%nat
         then [calculateRetryDelay (currentRetriesOf s progress)]
         else [].
Proof.
  unfold traceOf. rewrite run_syncProgressItem. cbv zeta.
  destruct (maxRetryAttempts <=? _)%nat; [reflexivity|].
  destruct (0 <? _)%nat;
    match goal with |- context [run (syncAttempt ?e ?p ?n) ?s1] =>
      pose proof (sleeps_syncAttempt e p n s1) as H; unfold traceOf in H;
      destruct (run (syncAttempt e p n) s1) as [[r s'] t] end;
    cbn [fst snd] in *; unfold sleeps in *; cbn [flat_map app]; rewrite H; reflexivity.
Qed.

Lemma backoff_schedule (envs : list Env) (progress : LocalMediaProgress.t) (sid : string) :
  forall s : State,
  Forall (fun env => Realm_opens env = true /\ transportFails env sid) envs ->
  mappedTo s progress sid ->
  (currentRetriesOf s progress + length envs <= maxRetryAttempts)%nat ->
  sleeps (traceOf (forEach envs (fun env => syncProgressItem env progress)) s)
  = List.map calculateRetryDelay
      (List.filter (fun k => (0 <? k)%nat) (seq (currentRetriesOf s progress) (length envs))).
Proof.
  induction envs as [|env envs IH]; intros s Hall Hmap Hlen; [reflexivity|].
  inversion Hall as [|? ? [Hopen Hfail] Hall']; subst. cbn [length] in Hlen.
  unfold traceOf. rewrite run_forEach_cons by apply syncProgressItem_returns.
  set (s1 := stateAfter (syncProgressItem env progress) s).
  assert (currentRetriesOf s1 progress = S (currentRetriesOf s progress)) as H1.
  { unfold currentRetriesOf at 1. unfold s1.
    rewrite (syncProgressItem_failure env progress s sid (Hmap env Hopen) Hfail) by lia.
    cbn. lia. }
  specialize (IH s1 Hall' (mappedTo_syncProgressItem env progress s sid Hmap)).
  rewrite H1 in IH. specialize (IH ltac:(lia)). unfold traceOf in IH.
  destruct (run (forEach envs _) s1) as [[r s'] t]. cbn [fst snd] in IH |- *.
  rewrite sleeps_app, IH, sleeps_syncProgressItem.
  replace (maxRetryAttempts <=? currentRetriesOf s progress)%nat with false
    by (symmetry; apply Nat.leb_gt; lia).
  cbn [length seq List.filter].
  destruct (0 <? currentRetriesOf s progress)%nat; reflexivity.
Qed.

(** X15.  A record whose five consecutive attempts all end in a transport
    failure is made to wait 4, 8, 16 and 32 seconds before its second to
    fifth attempt (none before the first): one minute of backoff in all. *)
Theorem five_failures_wait_one_minute
    (envs : list Env) (s : State) (progress : LocalMediaProgress.t) (sid : string) :
  length envs = maxRetryAttempts ->
  Forall (fun env => Realm_opens env = true /\ transportFails env sid) envs ->
  mappedTo s progress sid ->
  retryAttempts s !! LocalMediaProgress.id progress = None ->
  sleeps (traceOf (forEach envs (fun env => syncProgressItem env progress)) s)
  = [4; 8; 16; 32]%Q.
Proof.
  intros Hlen Hall Hmap Hnone.
  assert (currentRetriesOf s progress = 0%nat) as H0.
  { unfold currentRetriesOf. rewrite Hnone. reflexivity. }
  rewrite (backoff_schedule envs progress sid s Hall Hmap) by (rewrite H0, Hlen; reflexivity).
  rewrite H0, Hlen. reflexivity.
Qed.

Lemma five_failures_wait_one_minute_witness :
  sleeps (traceOf (forEach fiveFailures (fun env => syncProgressItem env pendingLocal))
            pendingState)
  = [4; 8; 16; 32]%Q.
Proof.
  assert (Forall (fun env => Realm_opens env = true /\ transportFails env "server-item-1")
            fiveFailures) as Hall.
  { assert (Realm_opens pushTimesOut = true /\ transportFails pushTimesOut "server-item-1")
      as Hpush by (split; [reflexivity | right; intros data; discriminate]).
    assert (Realm_opens fetchErrors = true /\ transportFails fetchErrors "server-item-1")
      as Hfetch by (split; [reflexivity | left; reflexivity]).
    unfold fiveFailures.
    repeat first [ apply List.Forall_nil
                 | apply List.Forall_cons; [first [exact Hpush | exact Hfetch]|] ]. }
  assert (mappedTo pendingState pendingLocal "server-item-1") as Hmap.
  { intros env Hopen. unfold getServerLibraryItemId. rewrite Hopen. reflexivity. }
  exact (five_failures_wait_one_minute fiveFailures pendingState pendingLocal
           "server-item-1" eq_refl Hall Hmap eq_refl).
Defined.

(** ** The progress-updated trigger *)

(** X16.  [onProgressUpdated] never raises, whatever fails underneath, and
    makes at most one sync attempt: none when offline, without a server
    configuration, with Realm unreadable or for an unknown item. *)
Theorem onProgressUpdated_never_raises (env : Env) (s : State) (localLibraryItemId : string) :
  outcomeOf (onProgressUpdated env localLibraryItemId) s = Returned tt /\
  (attempts (traceOf (onProgressUpdated env localLibraryItemId) s) <= 1)%nat /\
  (firstFor localLibraryItemId s = None ->
   inert (onProgressUpdated env localLibraryItemId) s).
Proof.
  unfold inert, outcomeOf, traceOf, stateAfter, onProgressUpdated.
  destruct (isNetworkAvailable env);
    [|repeat split; cbn; lia].
  destruct (Store_serverConfig env); [|repeat split; cbn; lia].
  destruct (Realm_opens env); [|repeat split; cbn; lia].
  cbn [negb run bind get].
  destruct (firstFor localLibraryItemId s) as [progress|];
    [|repeat split; cbn; lia].
  destruct (syncProgressItem_returns env progress s) as [Hr Ha].
  unfold outcomeOf, traceOf in Hr, Ha.
  split; [exact Hr|]. split; [rewrite Ha; lia | discriminate].
Qed.

(** ** Local updates and the sync mark *)

(** X17.  After [updateEbookProgressWithSync] on a stored record, the record
    carries the new location and progress and the current time as
    [lastUpdate]; its sync mark is untouched, so it counts as updated since
    the last sync exactly when it was never synced or the clock is strictly
    later than the last sync (an update in the same millisecond as the sync
    is not seen as pending). *)
Theorem local_update_marks_pending
    (env : Env) (s : State) (progress l : LocalMediaProgress.t)
    (ebookLocation : string) (ebookProgress : Q) :
  Realm_writes env = true ->
  List.find (sameObject progress) (localMediaProgress s) = Some l ->
  let s' := stateAfter (updateEbookProgressWithSync env progress ebookLocation ebookProgress)
              s in
  deref s' progress = withEbookProgress ebookLocation ebookProgress (clock s) l /\
  updatedSinceSync (deref s' progress)
  = match LocalMediaProgress.lastServerSync l with
    | None => true
    | Some lastServerSync => gt (clock s) lastServerSync
    end.
Proof.
  intros Hwrite Hl. cbv zeta.
  assert (deref (stateAfter
                   (updateEbookProgressWithSync env progress ebookLocation ebookProgress) s)
            progress
          = withEbookProgress ebookLocation ebookProgress (clock s) l) as Hderef.
  { unfold stateAfter, updateEbookProgressWithSync. cbn [run bind get].
    rewrite Hl, Hwrite. cbn [run modify fst snd].
    apply deref_assign; [intros; reflexivity | exact Hl]. }
  rewrite Hderef. split; reflexivity.
Qed.

Lemma local_update_marks_pending_witness :
  let s' := stateAfter (updateEbookProgressWithSync healthy syncedLocal chapter2 0.5)
              syncedState in
  LocalMediaProgress.ebookProgress (deref s' syncedLocal) = 0.5%Q /\
  updatedSinceSync (deref s' syncedLocal) = true.
Proof.
  destruct (local_update_marks_pending healthy syncedState syncedLocal syncedLocal
              chapter2 0.5 eq_refl eq_refl) as [Hderef Hpending].
  cbv zeta in *. split; [rewrite Hderef; reflexivity | rewrite Hpending; reflexivity].
Defined.

(** X18.  Round trip: an update followed by [markSyncedToServer] at the same
    clock reading leaves the record not needing sync, for any server
    configuration. *)
Theorem update_then_mark_is_synced
    (env env' : Env) (s : State) (progress l : LocalMediaProgress.t)
    (ebookLocation : string) (ebookProgress : Q) :
  Realm_writes env = true ->
  List.find (sameObject progress) (localMediaProgress s) = Some l ->
  let s' := stateAfter
              (updateEbookProgressWithSync env progress ebookLocation ebookProgress ;;
               markSyncedToServer progress) s in
  deref s' progress
  = LocalMediaProgress.set_lastServerSync (Some (clock s))
      (withEbookProgress ebookLocation ebookProgress (clock s) l) /\
  needsServerSync env' (deref s' progress) = false.
Proof.
  intros Hwrite Hl. cbv zeta.
  assert (deref (stateAfter
                   (updateEbookProgressWithSync env progress ebookLocation ebookProgress ;;
                    markSyncedToServer progress) s) progress
          = LocalMediaProgress.set_lastServerSync (Some (clock s))
              (withEbookProgress ebookLocation ebookProgress (clock s) l)) as Hderef.
  { unfold stateAfter, updateEbookProgressWithSync, markSyncedToServer.
    cbn [run bind get]. rewrite Hl, Hwrite. cbn [run bind modify fst snd].
    apply deref_assign; [intros; reflexivity|].
    apply find_stored_assign; [intros; reflexivity | exact Hl]. }
  rewrite Hderef. split; [reflexivity|].
  unfold needsServerSync, updatedSinceSync, gt. cbn.
  destruct (LocalMediaProgress.serverConnectionConfigId l); [|reflexivity].
  destruct (Store_serverConfig env'); [|reflexivity].
  destruct (String.eqb _ _); [|reflexivity].
  apply negb_false_iff, Qle_bool_iff, Qle_refl.
Qed.

Lemma update_then_mark_is_synced_witness :
  needsServerSync healthy
    (deref (stateAfter
              (updateEbookProgressWithSync healthy pendingLocal chapter2 0.5 ;;
               markSyncedToServer pendingLocal) pendingState) pendingLocal)
  = false.
Proof.
  exact (proj2 (update_then_mark_is_synced healthy healthy pendingState pendingLocal
                  pendingLocal chapter2 0.5 eq_refl eq_refl)).
Defined.

(** ** Clock skew *)

(** X19.  When the server is further and the push of the resolved record
    succeeds, the record ends with the server's timestamp as [lastUpdate] and
    the device clock as [lastServerSync]: it is still "updated since sync"
    exactly when the server's timestamp is ahead of the device clock. *)
Theorem server_timestamp_ahead_of_clock_stays_pending
    (env : Env) (s : State) (progress l : LocalMediaProgress.t) (sid : string)
    (server : MediaProgress.t) :
  Realm_opens env = true ->
  Realm_writes env = true ->
  (currentRetriesOf s progress < maxRetryAttempts)%nat ->
  List.find (sameObject progress) (localMediaProgress s) = Some l ->
  getServerLibraryItemId env s progress = Some sid ->
  ApiClient_getResource env sid = GetSuccess server ->
  (LocalMediaProgress.ebookProgress l < MediaProgress.ebookProgress server)%Q ->
  ApiClient_patchResource env sid (payloadOf server) = PatchSuccess true ->
  let s' := stateAfter (syncProgressItem env progress) s in
  updatedSinceSync (deref s' progress) = gt (MediaProgress.lastUpdate server) (clock s').
Proof.
  intros Hopen Hwrite Hmax Hl Hsid Hget Hlt Hpatch. cbv zeta.
  destruct (run_syncProgressItem_below_max env progress s Hmax) as (prefix & _ & Hrun).
  destruct (afterBackoff_same s progress) as (Hobjects & _).
  assert (List.find (sameObject progress) (localMediaProgress (afterBackoff s progress))
          = Some l) as Hl1 by (rewrite Hobjects; exact Hl).
  pose proof (syncAttempt_server_further env progress l (currentRetriesOf s progress)
                (afterBackoff s progress) sid server Hopen Hwrite Hl1
                (eq_trans (getServerLibraryItemId_afterBackoff env s progress) Hsid)
                Hget Hlt) as Hattempt.
  cbv zeta in Hattempt. rewrite Hpatch in Hattempt.
  unfold stateAfter. rewrite Hrun, Hattempt. cbn [fst snd].
  unfold deref. cbn [localMediaProgress set_retryAttempts].
  rewrite (find_stored_assign _ progress
             (LocalMediaProgress.updateFromServerMediaProgress server l)
             (LocalMediaProgress.set_lastServerSync (Some (clock (afterBackoff s progress))))
             (fun _ => eq_refl)).
  - reflexivity.
  - apply find_stored_assign; [intros; reflexivity | exact Hl1].
Qed.

Lemma server_timestamp_ahead_of_clock_stays_pending_witness :
  updatedSinceSync
    (deref (stateAfter (syncProgressItem skewedEnv behindLocal) behindState) behindLocal)
  = true.
Proof.
  assert (currentRetriesOf behindState behindLocal < maxRetryAttempts)%nat as Hmax
    by (vm_compute; lia).
  assert (LocalMediaProgress.ebookProgress behindLocal
          < MediaProgress.ebookProgress skewedServer)%Q as Hlt by reflexivity.
  exact (eq_trans
           (server_timestamp_ahead_of_clock_stays_pending skewedEnv behindState behindLocal
              behindLocal "server-item-1" skewedServer eq_refl eq_refl Hmax eq_refl eq_refl
              eq_refl Hlt eq_refl)
           eq_refl).
Defined.

(** ** The application delegate *)

(** X20.  [checkForSyncIssues] asks about the literal item id "any": on a
    device with no record of a local item of that name it never logs,
    however many records are pending. *)
Theorem checkForSyncIssues_only_sees_item_any (env : Env) (s : State) :
  (forall p, In p (localMediaProgress s) ->
             LocalMediaProgress.localLibraryItemId p <> "any") ->
  checkForSyncIssues env s = [].
Proof.
  intros Hnone. unfold checkForSyncIssues, hasPendingSync, firstFor.
  destruct (Realm_opens env); [|reflexivity].
  destruct (List.find _ (localMediaProgress s)) as [p|] eqn:Hfind; [|reflexivity].
  apply List.find_some in Hfind as [Hin Heq].
  apply String.eqb_eq in Heq. destruct (Hnone p Hin Heq).
Qed.

Lemma checkForSyncIssues_only_sees_item_any_witness :
  hasPendingSync healthy twoPendingState "local-item-1" = true /\
  checkForSyncIssues healthy twoPendingState = [].
Proof.
  split; [reflexivity|].
  apply (checkForSyncIssues_only_sees_item_any healthy twoPendingState).
  intros p [<- | [<- | []]]; discriminate.
Defined.

(** * The reader's sync methods *)



(** X22.  The manual sync button always ends with exactly one toast and
    calls the native plugin at most once; it returns [true] exactly when that
    toast is the success toast, which is exactly when the component has a
    local item, the platform is capacitor and the plugin resolved with
    [success]. *)
Theorem manual_sync_button_reports_faithfully (w : Reader.World) (c : Reader.Component) :
  let result := (Reader.manualSyncToServer w c).1 in
  let effects := (Reader.manualSyncToServer w c).2 in
  length (Reader.toasts effects) = 1%nat /\
  (length (Reader.nativeCalls effects) <= 1)%nat /\
  (result = true <->
   Reader.toasts effects = [Reader.ToastSuccess "Progress synced to server"]) /\
  (result = true <->
   truthy (Reader.localLibraryItemId c) = true /\
   Reader.platform w = "capacitor" /\
   exists answer,
     Reader.AbsDatabase_syncEbookProgressToServer w
       (default "" (Reader.localLibraryItemId c)) = Resolved answer /\
     Reader.success answer = true).
Proof.
  cbv zeta. unfold Reader.manualSyncToServer, Reader.syncEbookProgressToServer.
  destruct (truthy (Reader.localLibraryItemId c)) eqn:Hitem; cbn [negb].
  2:{ cbn. repeat split; try lia; try discriminate;
        try (intros (H & _); discriminate H). }
  destruct (String.eqb (Reader.platform w) "capacitor") eqn:Hplatform; cbn [negb].
  2:{ cbn. repeat split; try lia; try discriminate.
      intros (_ & H & _). apply String.eqb_neq in Hplatform. contradiction. }
  apply String.eqb_eq in Hplatform.
  destruct (Reader.AbsDatabase_syncEbookProgressToServer w _) as [[[] err]|] eqn:Hnative;
    cbn; repeat split; try lia; try discriminate; try (intros _; reflexivity);
    try assumption;
    try (exists {| Reader.success := true; Reader.error := err |}; split; reflexivity);
    try (intros (_ & _ & answer & Heq & Hsuccess);
         first [discriminate Heq | injection Heq as <-; discriminate Hsuccess]).
Qed.

(** X23.  Whatever the plugin answers, the manual sync button never shows
    an empty error toast: a failure without a message (or with an empty one)
    is shown as "Failed to sync progress". *)
Theorem manual_sync_toast_never_empty (w : Reader.World) (c : Reader.Component)
    (message : string) :
  In (Reader.ToastError message) (Reader.manualSyncToServer w c).2 -> message <> "".
Proof.
  unfold Reader.manualSyncToServer, Reader.syncEbookProgressToServer.
  destruct (truthy (Reader.localLibraryItemId c)); cbn [negb].
  2:{ intros [H | []]. injection H as <-. discriminate. }
  destruct (String.eqb (Reader.platform w) "capacitor"); cbn [negb].
  2:{ intros [H | []]. injection H as <-. discriminate. }
  destruct (Reader.AbsDatabase_syncEbookProgressToServer w _) as [[[] err]|]; cbn.
  - intros [H | [H | []]]; discriminate H.
  - intros [H | [H | []]]; [discriminate H|]. injection H as <-.
    destruct err as [text|]; cbn; [|discriminate].
    destruct (String.eqb text "") eqn:Htext; cbn; [discriminate|].
    apply String.eqb_neq. exact Htext.
  - intros [H | [H | [H | []]]]; try discriminate H. injection H as <-. discriminate.
Qed.

Lemma manual_sync_toast_never_empty_witness :
  Reader.manualSyncToServer silentFailureWorld downloadedBook
  = (false, [Reader.NativeSync "local-item-1"; Reader.ToastError "Failed to sync progress"]) /\
  "Failed to sync progress" <> "".
Proof.
  split; [reflexivity|].
  apply (manual_sync_toast_never_empty silentFailureWorld downloadedBook).
  right. left. reflexivity.
Defined.

(** X24.  [checkSyncStatus] answers [true] only when the component has a
    local item, the platform is capacitor and the plugin resolves with
    [hasPendingSync] set; without a local item it does not even ask. *)
Theorem checkSyncStatus_true_only_from_plugin (w : Reader.World) (c : Reader.Component) :
  ((Reader.checkSyncStatus w c).1 = true <->
   truthy (Reader.localLibraryItemId c) = true /\
   Reader.platform w = "capacitor" /\
   Reader.AbsDatabase_checkEbookSyncStatus w (default "" (Reader.localLibraryItemId c))
   = Resolved {| Reader.hasPendingSync := true |}) /\
  (truthy (Reader.localLibraryItemId c) = false -> (Reader.checkSyncStatus w c).2 = []).
Proof.
  unfold Reader.checkSyncStatus, Reader.checkEbookSyncStatus.
  destruct (truthy (Reader.localLibraryItemId c)); cbn [negb].
  2:{ cbn. repeat split; try discriminate; try (intros (H & _); discriminate H). }
  destruct (String.eqb (Reader.platform w) "capacitor") eqn:Hplatform; cbn [negb].
  2:{ cbn. repeat split; try discriminate.
      intros (_ & H & _). apply String.eqb_neq in Hplatform. contradiction. }
  apply String.eqb_eq in Hplatform.
  destruct (Reader.AbsDatabase_checkEbookSyncStatus w _) as [[[]]|];
    cbn; repeat split; try discriminate; try assumption;
    try (intros (_ & _ & H); discriminate H).
Qed.

(** X25.  [updateProgress] does nothing at all when progress is not kept.
    Otherwise the local database comes first: if its update is rejected, the
    promise is rejected and the server is not contacted; if it resolves (or
    there is no local item) the server patch is sent exactly when the
    component has a server item, and a failing patch does not reject the
    call. *)
Theorem updateProgress_local_first (w : Reader.World) (c : Reader.Component)
    (payload : Reader.Payload) :
  (Reader.keepProgress c = false ->
   Reader.updateProgress w c payload = (Resolved tt, [])) /\
  (Reader.keepProgress c = true ->
   truthy (Reader.localLibraryItemId c) = true ->
   Reader.db_updateLocalEbookProgress w (default "" (Reader.localLibraryItemId c)) payload
   = Rejected ->
   (Reader.updateProgress w c payload).1 = Rejected /\
   Reader.serverPatches (Reader.updateProgress w c payload).2 = []) /\
  (Reader.keepProgress c = true ->
   (truthy (Reader.localLibraryItemId c) = false \/
    exists answer,
      Reader.db_updateLocalEbookProgress w (default "" (Reader.localLibraryItemId c)) payload
      = Resolved answer) ->
   (Reader.updateProgress w c payload).1 = Resolved tt /\
   Reader.serverPatches (Reader.updateProgress w c payload).2
   = if truthy (Reader.serverLibraryItemId c)
     then [Reader.HttpPatch (default "" (Reader.serverLibraryItemId c)) payload]
     else []).
Proof.
  unfold Reader.updateProgress. split; [|split].
  - intros ->. reflexivity.
  - intros -> -> ->. cbn. split; reflexivity.
  - intros -> Hlocal. cbn [negb].
    assert (forall prefix : list Reader.Effect,
              Reader.serverPatches prefix = [] ->
              Reader.serverPatches
                (prefix ++
                 (if truthy (Reader.serverLibraryItemId c)
                  then
                    match Reader.nativeHttp_patch w
                            (default "" (Reader.serverLibraryItemId c)) payload with
                    | Resolved _ =>
                        [Reader.HttpPatch (default "" (Reader.serverLibraryItemId c)) payload]
                    | Rejected =>
                        [Reader.HttpPatch (default "" (Reader.serverLibraryItemId c)) payload;
                         Reader.ConsoleError]
                    end
                  else []))
              = if truthy (Reader.serverLibraryItemId c)
                then [Reader.HttpPatch (default "" (Reader.serverLibraryItemId c)) payload]
                else []) as Hserver.
    { intros prefix Hprefix. unfold Reader.serverPatches in *.
      rewrite List.filter_app, Hprefix.
      destruct (truthy (Reader.serverLibraryItemId c)); [|reflexivity].
      destruct (Reader.nativeHttp_patch w _ payload); reflexivity. }
    destruct Hlocal as [-> | [answer Hanswer]].
    + split; [reflexivity|]. exact (Hserver [] eq_refl).
    + destruct (truthy (Reader.localLibraryItemId c)).
      * rewrite Hanswer. split; [reflexivity|]. cbn [snd].
        destruct answer as [progress|].
        -- exact (Hserver [Reader.DbUpdateLocal _ payload; Reader.Commit progress] eq_refl).
        -- exact (Hserver [Reader.DbUpdateLocal _ payload] eq_refl).
      * split; [reflexivity|]. exact (Hserver [] eq_refl).
Qed.

Lemma updateProgress_local_first_witness :
  Reader.updateProgress webWorld downloadedBook
    {| Reader.ebookLocation := chapter2; Reader.ebookProgress := 0.4 |}
  = (Rejected,
     [Reader.DbUpdateLocal "local-item-1"
        {| Reader.ebookLocation := chapter2; Reader.ebookProgress := 0.4 |}]) /\
  Reader.serverPatches
    (Reader.updateProgress webWorld downloadedBook
       {| Reader.ebookLocation := chapter2; Reader.ebookProgress := 0.4 |}).2
  = [].
Proof.
  split; [reflexivity|].
  exact (proj2 (proj1 (proj2 (updateProgress_local_first webWorld downloadedBook
                                {| Reader.ebookLocation := chapter2;
                                   Reader.ebookProgress := 0.4 |}))
                  eq_refl eq_refl eq_refl)).
Defined.

(** * The bookmarks modal *)

(** X26.  The playback rate used to scale the displayed timestamps is never
    zero: a rate of 0 or NaN is replaced by 1, any other rate is used as it
    is. *)
Theorem playback_rate_never_zero (props : Bookmarks.Props) :
  ~ (Bookmarks._playbackRate props == 0)%Q /\
  forall rate,
    Bookmarks.playbackRate props = Bookmarks.Num rate ->
    ~ (rate == 0)%Q ->
    Bookmarks._playbackRate props = rate.
Proof.
  unfold Bookmarks._playbackRate. split.
  - destruct (Bookmarks.playbackRate props) as [|rate]; [discriminate|].
    destruct (Qeq_bool rate 0) eqn:Hzero; [discriminate|].
    apply Qeq_bool_neq. exact Hzero.
  - intros rate -> Hrate.
    destruct (Qeq_bool rate 0) eqn:Hzero; [|reflexivity].
    apply Qeq_bool_iff in Hzero. contradiction.
Qed.

(** X27.  Creating a bookmark: after [createBookmark] and typing a note,
    [submitBookmark] sends exactly one request, a POST whose time is the
    current time rounded down to a whole second and whose title is the typed
    note, or the formatted current date when nothing was typed; and whether
    that request succeeds or not, the note is cleared, the input is hidden
    and the modal is closed. *)
Theorem create_then_submit_posts_floor_time
    (w : Bookmarks.World) (props : Bookmarks.Props) (d0 : Bookmarks.Data) (text : string) :
  let d := Bookmarks.typeTitle text (Bookmarks.createBookmark d0) in
  let posted := if String.eqb text "" then Bookmarks.formattedNow w else text in
  let seconds := Qfloor (Bookmarks.currentTime props) in
  List.filter Bookmarks.isRequest (Bookmarks.submitBookmark w props d).2
  = [Bookmarks.HttpPost (Bookmarks.libraryItemId props) posted seconds] /\
  (inject_Z seconds <= Bookmarks.currentTime props < inject_Z (seconds + 1))%Q /\
  In (Bookmarks.EmitInput false) (Bookmarks.submitBookmark w props d).2 /\
  (Bookmarks.submitBookmark w props d).1
  = {| Bookmarks.selectedBookmark := None;
       Bookmarks.showBookmarkTitleInput := false;
       Bookmarks.newBookmarkTitle := "" |}.
Proof.
  cbv zeta. unfold Bookmarks.submitBookmark, Bookmarks.submitCreateBookmark. cbn.
  split; [|split; [|split]].
  - destruct (Bookmarks.http_post w); reflexivity.
  - split; [apply Qfloor_le | apply Qlt_floor].
  - right. right. left. reflexivity.
  - reflexivity.
Qed.

(** X28.  Editing a bookmark: after [editBookmark] and typing a new note,
    [submitBookmark] sends exactly one request, a PATCH of the selected
    bookmark with only its title replaced, and never closes the modal.  If
    the request succeeds the stored bookmark is committed and the input is
    hidden; if it fails the selection, the typed note and the open input are
    all kept. *)
Theorem edit_then_submit_patches_title
    (w : Bookmarks.World) (props : Bookmarks.Props) (d0 : Bookmarks.Data)
    (bm : Bookmarks.Bookmark) (text : string) :
  let d := Bookmarks.typeTitle text (Bookmarks.editBookmark bm d0) in
  let patched :=
    {| Bookmarks.id := Bookmarks.id bm; Bookmarks.title := text;
       Bookmarks.time := Bookmarks.time bm |} in
  List.filter Bookmarks.isRequest (Bookmarks.submitBookmark w props d).2
  = [Bookmarks.HttpPatch (Bookmarks.libraryItemId props) patched] /\
  (forall val, ~ In (Bookmarks.EmitInput val) (Bookmarks.submitBookmark w props d).2) /\
  match Bookmarks.http_patch w with
  | Resolved stored =>
      In (Bookmarks.CommitUpdateBookmark stored) (Bookmarks.submitBookmark w props d).2 /\
      Bookmarks.showBookmarkTitleInput (Bookmarks.submitBookmark w props d).1 = false
  | Rejected =>
      (Bookmarks.submitBookmark w props d).1 = d /\
      Bookmarks.showBookmarkTitleInput d = true /\
      In (Bookmarks.ToastError "ToastBookmarkUpdateFailed")
        (Bookmarks.submitBookmark w props d).2
  end.
Proof.
  cbv zeta. unfold Bookmarks.submitBookmark, Bookmarks.submitUpdateBookmark. cbn.
  destruct (Bookmarks.http_patch w) as [stored|]; cbn.
  - repeat split.
    + intros val [H | [H | [H | []]]]; discriminate H.
    + right. right. left. reflexivity.
  - repeat split.
    + intros val [H | [H | [H | [H | []]]]]; discriminate H.
    + right. right. left. reflexivity.
Qed.

(** X29.  Deleting a bookmark: nothing is sent unless the confirmation
    dialog is accepted; once accepted exactly one DELETE for the bookmark's
    time is sent, and the bookmark is removed from the store exactly when
    that request succeeds. *)
Theorem delete_needs_confirmation
    (w : Bookmarks.World) (props : Bookmarks.Props) (bm : Bookmarks.Bookmark) :
  List.filter Bookmarks.isRequest (Bookmarks.deleteBookmark w props bm)
  = (if Bookmarks.confirmValue w
     then [Bookmarks.HttpDelete (Bookmarks.libraryItemId props) (Bookmarks.time bm)]
     else []) /\
  (In (Bookmarks.CommitDeleteBookmark (Bookmarks.libraryItemId props) (Bookmarks.time bm))
      (Bookmarks.deleteBookmark w props bm)
   <-> Bookmarks.confirmValue w = true /\ Bookmarks.http_delete w = Resolved tt).
Proof.
  unfold Bookmarks.deleteBookmark.
  destruct (Bookmarks.confirmValue w); cbn.
  - destruct (Bookmarks.http_delete w) as [[]|]; cbn; split; try reflexivity.
    + split; [intros _; split; reflexivity|]. intros _. right. right. right. left. reflexivity.
    + split; [|intros [_ H]; discriminate H].
      intros [H | [H | [H | [H | [H | []]]]]]; discriminate H.
  - split; [reflexivity|]. split; [|intros [H _]; discriminate H].
    intros [H | [H | []]]; discriminate H.
Qed.

Lemma find_none_not_exists {X : Type} (f : X -> bool) (l : list X) :
  (forall x, In x l -> f x = false) -> List.find f l = None.
Proof.
  induction l as [|x l IH]; intros H; [reflexivity|].
  cbn. rewrite (H x (or_introl eq_refl)). apply IH. intros y Hy. apply H. right. exact Hy.
Qed.

(** X30.  Bookmarks are created at whole seconds but [canCreateBookmark]
    compares the exact current time: when every existing bookmark sits on a
    whole second, creating is refused only at a whole-second position, so at
    a fractional position a further bookmark can always be created. *)
Theorem can_create_at_fractional_time (props : Bookmarks.Props) :
  (forall bm, In bm (Bookmarks.bookmarks props) ->
              exists seconds : Z, (Bookmarks.time bm == inject_Z seconds)%Q) ->
  (forall seconds : Z, ~ (Bookmarks.currentTime props == inject_Z seconds)%Q) ->
  Bookmarks.canCreateBookmark props = true.
Proof.
  intros Hwhole Hfraction. unfold Bookmarks.canCreateBookmark.
  rewrite find_none_not_exists; [reflexivity|].
  intros bm Hbm. destruct (Hwhole bm Hbm) as [seconds Hseconds].
  destruct (Qeq_bool (Bookmarks.time bm) (Bookmarks.currentTime props)) eqn:Heq;
    [|reflexivity].
  apply Qeq_bool_iff in Heq. destruct (Hfraction seconds).
  rewrite <- Heq. exact Hseconds.
Qed.

Lemma can_create_at_fractional_time_witness :
  Bookmarks.canCreateBookmark halfwayProps = true /\
  Qfloor (Bookmarks.currentTime halfwayProps) = 12%Z.
Proof.
  split; [|reflexivity].
  apply can_create_at_fractional_time.
  - intros bm [<- | []]. exists 12%Z. reflexivity.
  - intros seconds H. unfold Qeq in H. cbn in H. lia.
Defined.
